(** * project_snapshot_cli: a shallow embedding of the snapshot core

    The development follows [project_snapshot_cli.py]: the binary sniffer
    [looks_binary], the bounded reader [read_text_safely], the gitignore
    adapter, the path filter [include_pred], the ASCII tree renderer
    [dir_tree_ascii] and the assembler [build_snapshot].

    Modelling conventions.
    - A Python [bytes] value is a [list byte]; a Python [str] is the list of
      its code points ([list N]).
    - The directory tree rooted at [root] is a finite tree of entries; the
      order of the children of a directory is the order in which the
      operating system lists them.  Symbolic links are not modelled: the
      tree renderer follows a link to a directory and [os.walk] does not,
      so with such links the tree can list more than the walk visits.
    - A file that cannot be read (permission denied, vanished) carries no
      data; reading it raises.
    - [build_snapshot] is the program on a tree whose entries can all be
      examined by [stat]; [build_snapshot_denied] adds the entries on which
      [stat] raises.
    - [options] holds each key absent or present with a value;
      [raw_options] adds a key present with the value [None].
    - Library functions whose behaviour is not fixed by the program
      ([fnmatch.fnmatch], [str.lower]) are fields of the class [PyLib]; the
      iteration order of a Python [set], which depends on the per-process
      hash seed, is an explicit argument of the assembler. *)

From Stdlib Require Import String Ascii.
From Stdlib Require Import List ZArith NArith QArith Bool Lia.
From Stdlib Require Import Permutation Sorted DecimalString.
From Stdlib Require Init.Byte.
Import ListNotations.

Local Close Scope Q_scope.
Local Open Scope nat_scope.
Local Open Scope list_scope.

(** ** Python strings and bytes *)

Definition str := list N.
Definition bytes := list Byte.byte.

Definition lit (s : string) : str :=
  map N_of_ascii (list_ascii_of_string s).

Definition nl : str := [10%N].

Definition str_eqb (a b : str) : bool :=
  if list_eq_dec N.eq_dec a b then true else false.

(** Python compares strings lexicographically by code point. *)
Fixpoint str_leb (a b : str) : bool :=
  match a, b with
  | [], _ => true
  | _ :: _, [] => false
  | x :: a', y :: b' =>
      if (x <? y)%N then true
      else if (y <? x)%N then false
      else str_leb a' b'
  end.

(** [x in s] for a set or list of strings. *)
Definition mem (x : str) (s : list str) : bool := existsb (str_eqb x) s.

(** [s.startswith(p)] *)
Fixpoint startswith (s p : str) : bool :=
  match p, s with
  | [], _ => true
  | _ :: _, [] => false
  | c :: p', d :: s' => (c =? d)%N && startswith s' p'
  end.

(** [sep.join(l)] *)
Fixpoint join (sep : str) (l : list str) : str :=
  match l with
  | [] => []
  | x :: r =>
      match r with
      | [] => x
      | _ :: _ => x ++ sep ++ join sep r
      end
  end.

Fixpoint lstrip_while (f : N -> bool) (s : str) : str :=
  match s with
  | [] => []
  | c :: t => if f c then lstrip_while f t else s
  end.

Definition strip_while (f : N -> bool) (s : str) : str :=
  rev (lstrip_while f (rev (lstrip_while f s))).

(** [s.strip("\n")] *)
Definition strip_nl (s : str) : str := strip_while (N.eqb 10) s.

(** The characters [str.isspace] accepts; [s.strip()] removes them. *)
Definition is_space (c : N) : bool :=
  ((9 <=? c) && (c <=? 13) || (28 <=? c) && (c <=? 32)
   || (c =? 133) || (c =? 160) || (c =? 5760)
   || (8192 <=? c) && (c <=? 8202) || (c =? 8232) || (c =? 8233)
   || (c =? 8239) || (c =? 8287) || (c =? 12288))%N.

Definition strip (s : str) : str := strip_while is_space s.

(** The line boundaries of [str.splitlines], the pair CR LF apart. *)
Definition is_linebreak (c : N) : bool :=
  ((c =? 10) || (c =? 11) || (c =? 12) || (c =? 13) || (c =? 28)
   || (c =? 29) || (c =? 30) || (c =? 133) || (c =? 8232) || (c =? 8233))%N.

(** [s.splitlines()]: [cur] is the line being read, reversed. *)
Fixpoint splitlines_from (cur : str) (s : str) : list str :=
  match s with
  | [] => match cur with [] => [] | _ :: _ => [rev cur] end
  | c :: t =>
      if (c =? 13)%N then
        match t with
        | d :: t' =>
            if (d =? 10)%N then rev cur :: splitlines_from [] t'
            else rev cur :: splitlines_from [] t
        | [] => [rev cur]
        end
      else if is_linebreak c then rev cur :: splitlines_from [] t
      else splitlines_from (c :: cur) t
  end.

Definition splitlines (s : str) : list str := splitlines_from [] s.

(** [l[:n]] and [l[-n:]] for a positive [n]. *)
Definition slice_head {A} (n : Z) (l : list A) : list A := firstn (Z.to_nat n) l.
Definition slice_tail {A} (n : Z) (l : list A) : list A :=
  skipn (length l - Z.to_nat n) l.

(** [str(n)] for a counter. *)
Definition str_of_nat (n : nat) : str :=
  lit (NilZero.string_of_uint (Nat.to_uint n)).

(** ** UTF-8 decoding with an error handler

    [bytes.decode("utf-8", errors=...)]: an ill-formed sequence is cut at its
    maximal well-formed prefix and handed to the handler; [Replace] puts
    U+FFFD in its place and [Ignore] drops it.  The decoder is total: no
    input makes it raise. *)

Inductive errors := Replace | Ignore.

Definition on_error (e : errors) : str :=
  match e with Replace => [65533%N] | Ignore => [] end.

Definition between (lo hi b : N) : bool := ((lo <=? b) && (b <=? hi))%N.
Definition is_cont (b : N) : bool := between 128 191 b.

(** Range of the second byte after the lead byte [b0]. *)
Definition second_ok (b0 b1 : N) : bool :=
  between (if (b0 =? 224)%N then 160 else if (b0 =? 240)%N then 144 else 128)%N
          (if (b0 =? 237)%N then 159 else if (b0 =? 244)%N then 143 else 191)%N
          b1.

Fixpoint decode (e : errors) (l : bytes) : str :=
  match l with
  | [] => []
  | c0 :: t =>
      let b0 := Byte.to_N c0 in
      if (b0 <? 128)%N then b0 :: decode e t
      else if between 194 223 b0 then
        match t with
        | [] => on_error e
        | c1 :: t1 =>
            let b1 := Byte.to_N c1 in
            if is_cont b1
            then ((b0 - 192) * 64 + (b1 - 128))%N :: decode e t1
            else on_error e ++ decode e t
        end
      else if between 224 239 b0 then
        match t with
        | [] => on_error e
        | c1 :: t1 =>
            let b1 := Byte.to_N c1 in
            if second_ok b0 b1 then
              match t1 with
              | [] => on_error e
              | c2 :: t2 =>
                  let b2 := Byte.to_N c2 in
                  if is_cont b2
                  then ((b0 - 224) * 4096 + (b1 - 128) * 64 + (b2 - 128))%N
                       :: decode e t2
                  else on_error e ++ decode e t1
              end
            else on_error e ++ decode e t
        end
      else if between 240 244 b0 then
        match t with
        | [] => on_error e
        | c1 :: t1 =>
            let b1 := Byte.to_N c1 in
            if second_ok b0 b1 then
              match t1 with
              | [] => on_error e
              | c2 :: t2 =>
                  let b2 := Byte.to_N c2 in
                  if is_cont b2 then
                    match t2 with
                    | [] => on_error e
                    | c3 :: t3 =>
                        let b3 := Byte.to_N c3 in
                        if is_cont b3
                        then ((b0 - 240) * 262144 + (b1 - 128) * 4096
                              + (b2 - 128) * 64 + (b3 - 128))%N :: decode e t3
                        else on_error e ++ decode e t2
                    end
                  else on_error e ++ decode e t1
              end
            else on_error e ++ decode e t
        end
      else on_error e ++ decode e t
  end.

(** ** Binary sniffer

    [nontext_ratio] is the quotient the source computes with [/]; it is kept
    exact here (a rational).  The source compares the double nearest to the
    quotient with the double nearest to 0.30; the two comparisons agree for
    every sample shorter than 2^52 bytes. *)

Definition is_nul (b : Byte.byte) : bool := (Byte.to_N b =? 0)%N.
Definition high_bit (b : Byte.byte) : bool := (127 <? Byte.to_N b)%N.

(** [sum(ch > 0x7F for ch in sample)] *)
Definition count_high (sample : bytes) : nat :=
  fold_right (fun ch acc => (if high_bit ch then 1 else 0) + acc) 0 sample.

Definition Qgtb (a b : Q) : bool :=
  match Qcompare a b with Gt => true | _ => false end.

Definition looks_binary (sample : bytes) : bool :=
  match sample with
  | [] => false
  | _ :: _ =>
      if existsb is_nul sample then true
      else
        let nontext_ratio :=
          Qmake (Z.of_nat (count_high sample)) (Pos.of_nat (length sample)) in
        Qgtb nontext_ratio (30 # 100)%Q
  end.

(** ** Bounded reader *)

(** [f.read(n)] on a buffered binary file: a size below -1 raises. *)
Definition buffered_read (content : bytes) (n : Z) : option bytes :=
  if (n <? -1)%Z then None
  else if (n =? -1)%Z then Some content
  else Some (firstn (Z.to_nat n) content).

(** The result triple [(text, truncated, binary_skipped)]. *)
Definition read_result := (str * bool * bool)%type.

Definition skipped_result : read_result := ([], false, true).

(** [file] is the data of the file at [path], or [None] when [stat] or
    [open] raises.  The outer [try ... except Exception] turns every raise
    into [skipped_result]. *)
Definition read_text_safely (file : option bytes) (max_bytes : Z) : read_result :=
  match file with
  | None => skipped_result
  | Some content =>
      if negb (max_bytes =? 0)%Z && (max_bytes <? Z.of_nat (length content))%Z then
        match buffered_read content (max_bytes + 1) with
        | None => skipped_result
        | Some data =>
            if looks_binary data then skipped_result
            else (decode Replace data, true, false)
        end
      else
        if looks_binary content then skipped_result
        else (decode Replace content, false, false)
  end.

(** ** Library functions left abstract *)

Class PyLib := {
  (** [fnmatch.fnmatch(name, pat)] *)
  fnmatch : str -> str -> bool;
  (** [str.lower] *)
  lower : str -> str
}.

(** ** Sorting

    [sorted(l, key=...)] is stable; a stable sort has one possible result, so
    insertion from the right stands for it. *)

Fixpoint insert_by {A} (leb : A -> A -> bool) (x : A) (l : list A) : list A :=
  match l with
  | [] => [x]
  | y :: t => if leb x y then x :: l else y :: insert_by leb x t
  end.

Definition sorted {A} (leb : A -> A -> bool) (l : list A) : list A :=
  fold_right (insert_by leb) [] l.

Definition sorted_by_key {A} (key : A -> str) (l : list A) : list A :=
  sorted (fun a b => str_leb (key a) (key b)) l.

(** ** The directory tree and paths *)

Inductive entry :=
| File (name : str) (data : option bytes)
| Dir (name : str) (children : list entry).

Definition entry_name (e : entry) : str :=
  match e with File n _ => n | Dir n _ => n end.

Definition is_dir (e : entry) : bool :=
  match e with File _ _ => false | Dir _ _ => true end.

(** The entries a directory lists; a file lists none. *)
Definition children (e : entry) : list entry :=
  match e with File _ _ => [] | Dir _ cs => cs end.

(** A path below the root, as its components relative to the root. *)
Definition path := list str.

Definition path_eq_dec : forall p q : path, {p = q} + {p <> q} :=
  list_eq_dec (list_eq_dec N.eq_dec).

Definition slash : str := lit "/".

(** [str(p.relative_to(root))] *)
Definition rel_str (p : path) : str := join slash p.

(** [str(p)] for the absolute path [root / p]; [root] is the list of the
    components of the resolved root. *)
Definition full_str (root : list str) (p : path) : str :=
  slash ++ join slash (root ++ p).

(** [p.name] *)
Definition path_name (p : path) : str := last p [].

(** Index of the last dot of [s], counting from [i]. *)
Fixpoint rfind_dot (s : str) (i : nat) : option nat :=
  match s with
  | [] => None
  | c :: t =>
      match rfind_dot t (S i) with
      | Some j => Some j
      | None => if (c =? 46)%N then Some i else None
      end
  end.

(** [PurePath.suffix] of a file name: the part from the last dot on, when
    that dot is neither the first nor the last character. *)
Definition suffix (name : str) : str :=
  match rfind_dot name 0 with
  | Some i => if (0 <? i) && (i <? length name - 1) then skipn i name else []
  | None => []
  end.

(** The file the path [p] names, looked up from the children [cs] of the
    root; [None] when there is no such entry. *)
Fixpoint lookup (cs : list entry) (p : path) : option entry :=
  match p with
  | [] => None
  | n :: rest =>
      match find (fun e => str_eqb (entry_name e) n) cs with
      | None => None
      | Some e =>
          match rest with
          | [] => Some e
          | _ :: _ =>
              match e with
              | Dir _ sub => lookup sub rest
              | File _ _ => None
              end
          end
      end
  end.

(** The bytes [open(p, "rb")] gives access to; [None] when it raises. *)
Definition file_data (cs : list entry) (p : path) : option bytes :=
  match lookup cs p with
  | Some (File _ d) => d
  | _ => None
  end.

(** ** Options *)

Definition DEFAULT_INCLUDE_EXTS : list str :=
  map lit [".py"; ".json"; ".test"; ".sh"; ".toml"; ".yml"; ".yaml"; ".cfg";
           ".ini"; ".html"; ""]%string.

Definition DEFAULT_EXCLUDE_DIRS : list str :=
  map lit ["__pycache__"; ".git"; ".venv"; "venv"; ".idea"; ".mypy_cache";
           "data"; "bu"; "bootstrap"; "out"; "config"; ".ipynb_checkpoints";
           "assets"; ".pytest_cache"]%string.

Definition DEFAULT_EXCLUDE_FILES : list str :=
  map lit ["scratch.json"; "scratch.py"]%string.

(** The dictionary [opts]; a field is [None] when the key is absent. *)
Record options := {
  opt_root : list str;
  opt_include_exts : option (list str);
  opt_exclude_dirs : option (list str);
  opt_exclude_files : option (list str);
  opt_include_globs : option (list str);
  opt_exclude_globs : option (list str);
  opt_respect_gitignore : option bool;
  opt_max_bytes : option Z;
  opt_head_lines : option Z;
  opt_tail_lines : option Z;
  opt_show_stats : option bool
}.

(** [d.get(key, default)] *)
Definition get {A} (v : option A) (default : A) : A :=
  match v with Some x => x | None => default end.

Definition nonempty {A} (l : list A) : bool :=
  match l with [] => false | _ :: _ => true end.

Definition _lang_from_suffix (sfx : str) : str :=
  let table :=
    [(".test", "test"); (".py", "python"); (".md", "markdown");
     (".json", "json"); (".toml", "toml"); (".yml", "yaml");
     (".yaml", "yaml"); (".txt", "text"); (".cfg", "ini"); (".ini", "ini");
     (".html", "html")]%string in
  match find (fun kv => str_eqb (lit (fst kv)) sfx) table with
  | Some kv => lit (snd kv)
  | None => []
  end.

(** ** Gitignore adapter *)

(** [cs] are the children of the root.  Reading [.gitignore] is not
    guarded: when it exists and cannot be read the exception escapes. *)
Definition apply_gitignore_patterns (cs : list entry) : option (list str) :=
  match find (fun e => str_eqb (entry_name e) (lit ".gitignore")) cs with
  | None => Some []
  | Some (File _ (Some data)) =>
      Some (filter (fun line => nonempty line && negb (startswith line (lit "#")))
                   (map strip (splitlines (decode Ignore data))))
  | Some _ => None
  end.

Section Core.

Context {py : PyLib}.

Definition matches_any_glob (relpath : str) (globs : list str) : bool :=
  existsb (fun pat => fnmatch relpath pat) globs.

(** The local variables [build_snapshot] derives from [opts]. *)
Definition include_exts (o : options) : list str :=
  map lower (get (opt_include_exts o) DEFAULT_INCLUDE_EXTS).
Definition exclude_dirs (o : options) : list str :=
  get (opt_exclude_dirs o) DEFAULT_EXCLUDE_DIRS.
Definition exclude_files (o : options) : list str :=
  get (opt_exclude_files o) DEFAULT_EXCLUDE_FILES.
Definition include_globs (o : options) : list str := get (opt_include_globs o) [].
Definition exclude_globs (o : options) : list str := get (opt_exclude_globs o) [].
Definition respect_gitignore (o : options) : bool :=
  get (opt_respect_gitignore o) false.
Definition max_bytes (o : options) : Z := get (opt_max_bytes o) 0%Z.
Definition head_lines (o : options) : Z := get (opt_head_lines o) 200%Z.
Definition tail_lines (o : options) : Z := get (opt_tail_lines o) 80%Z.
Definition show_stats (o : options) : bool := get (opt_show_stats o) true.

(** ** Path filter *)

(** The directory rule, also the pruning test of the file walk. *)
Definition dir_rule (o : options) (name : str) : bool :=
  negb (mem name (exclude_dirs o)) && negb (startswith name (lit ".")).

(** [include_pred(p)]; [p_is_dir] is the answer of [p.is_dir()]. *)
Definition include_pred (o : options) (gitignore_pats : list str)
    (p_is_dir : bool) (p : path) : bool :=
  if p_is_dir then dir_rule o (path_name p)
  else
    let rel := rel_str p in
    if nonempty (exclude_globs o) && matches_any_glob rel (exclude_globs o)
    then false
    else if nonempty gitignore_pats && matches_any_glob rel gitignore_pats
    then false
    else if nonempty (include_globs o)
            && negb (matches_any_glob rel (include_globs o))
    then false
    else if mem (path_name p) (exclude_files o) then false
    else mem (lower (suffix (path_name p))) (include_exts o).

(** ** Tree renderer *)

(** A directory entry that passed the filter, with the lines of what lies
    below it as a function of the prefix. *)
Record item := {
  it_is_dir : bool;
  it_name : str;
  it_below : str -> list str
}.

(** The key [(not q.is_dir(), q.name.lower())], compared as a tuple. *)
Definition item_leb (a b : item) : bool :=
  match negb (it_is_dir a), negb (it_is_dir b) with
  | false, true => true
  | true, false => false
  | _, _ => str_leb (lower (it_name a)) (lower (it_name b))
  end.

(** The loop of [walk] over the sorted entries of one directory. *)
Fixpoint render (prefix : str) (entries : list item) : list str :=
  match entries with
  | [] => []
  | e :: rest =>
      let is_last := negb (nonempty rest) in
      let connector := if is_last then lit "`-- " else lit "|-- " in
      let extension := if is_last then lit "    " else lit "|   " in
      (prefix ++ connector ++ it_name e)
        :: (if it_is_dir e then it_below e (prefix ++ extension) else [])
        ++ render prefix rest
  end.

(** [walk(path, prefix)] for the directory [e] at [rel]: [iter_entries]
    filters and sorts the children, [render] prints them. *)
Fixpoint walk (o : options) (gi : list str) (rel : path) (e : entry)
    {struct e} : str -> list str :=
  match e with
  | File _ _ => fun _ => []
  | Dir _ cs =>
      let candidates :=
        map (fun c =>
               let p := rel ++ [entry_name c] in
               (include_pred o gi (is_dir c) p,
                {| it_is_dir := is_dir c;
                   it_name := entry_name c;
                   it_below := walk o gi p c |})) cs in
      let items := map snd (filter fst candidates) in
      fun prefix => render prefix (sorted item_leb items)
  end.

Definition root_name (o : options) : str := last (opt_root o) [].

Definition dir_tree_ascii (o : options) (gi : list str) (cs : list entry) : str :=
  join nl (root_name o :: walk o gi [] (Dir (root_name o) cs) []).

(** ** File collection: the [os.walk] loop *)

Fixpoint collect (o : options) (gi : list str) (rel : path) (e : entry)
    {struct e} : list path :=
  match e with
  | File _ _ => []
  | Dir _ cs =>
      flat_map (fun c =>
                  match c with
                  | File n _ =>
                      if include_pred o gi false (rel ++ [n])
                      then [rel ++ [n]] else []
                  | Dir _ _ => []
                  end) cs
      ++ flat_map (fun c =>
                     match c with
                     | Dir n _ =>
                         if dir_rule o n then collect o gi (rel ++ [n]) c else []
                     | File _ _ => []
                     end) cs
  end.

(** ** Assembler *)

Definition marker : str := lit "... [truncated] ...".

(** Lines 310-313: head and tail of the lines of the text that was read. *)
Definition shape (o : options) (text : str) : str :=
  let lines := splitlines text in
  let head := if (0 <? head_lines o)%Z then slice_head (head_lines o) lines else [] in
  let tail := if (0 <? tail_lines o)%Z then slice_tail (tail_lines o) lines else [] in
  join nl (head ++ [[]; marker; []] ++ tail).

Definition section (p : path) (text : str) : str :=
  lit "## " ++ rel_str p ++ nl
  ++ lit "```" ++ _lang_from_suffix (lower (suffix (path_name p))) ++ nl
  ++ text ++ nl ++ lit "```" ++ nl ++ nl.

Record loop_state := {
  out : list str;
  total_files : nat;
  truncated_files : nat;
  skipped_binaries : nat
}.

(** One iteration of [for path in files]. *)
Definition loop_body (o : options) (cs : list entry)
    (st : loop_state) (p : path) : loop_state :=
  let total := S (total_files st) in
  let '(text, truncated, bin_skip) :=
    read_text_safely (file_data cs p) (max_bytes o) in
  if bin_skip && negb (nonempty text) then
    {| out := out st; total_files := total;
       truncated_files := truncated_files st;
       skipped_binaries := S (skipped_binaries st) |}
  else
    let text :=
      if truncated && ((0 <? head_lines o)%Z || (0 <? tail_lines o)%Z)
      then shape o text else text in
    {| out := out st ++ [section p (strip_nl text)];
       total_files := total;
       truncated_files :=
         if truncated then S (truncated_files st) else truncated_files st;
       skipped_binaries := skipped_binaries st |}.

Definition header (tree_txt : str) : list str :=
  [lit "# Project Snapshot" ++ nl; lit "## Directory Tree" ++ nl;
   lit "```text" ++ nl; tree_txt; nl ++ lit "```" ++ nl ++ nl].

Definition stats_footer (o : options) (st : loop_state) : list str :=
  if show_stats o then
    [lit "---" ++ nl; lit "## Snapshot Stats" ++ nl;
     lit "- files_included: " ++ str_of_nat (total_files st) ++ nl]
    ++ (if negb (max_bytes o =? 0)%Z
        then [lit "- files_truncated_by_bytes: "
              ++ str_of_nat (truncated_files st) ++ nl]
        else [])
    ++ [lit "- files_skipped_as_binary_or_unreadable: "
        ++ str_of_nat (skipped_binaries st) ++ nl]
  else [].

(** The sort key [str(p).lower()] of line 284. *)
Definition sort_key (o : options) (p : path) : str :=
  lower (full_str (opt_root o) p).

(** [sorted(set(files), key=lambda p: str(p).lower())]; [set_order] lists
    the elements of [set(files)] in the order the set iterates them. *)
Definition sorted_files (set_order : list path -> list path) (o : options)
    (files : list path) : list path :=
  sorted_by_key (sort_key o) (set_order files).

Definition gitignore_pats (o : options) (cs : list entry) : option (list str) :=
  if respect_gitignore o then apply_gitignore_patterns cs else Some [].

Definition initial_state (tree_txt : str) : loop_state :=
  {| out := header tree_txt; total_files := 0;
     truncated_files := 0; skipped_binaries := 0 |}.

(** The state after the loop over the files, for given gitignore patterns. *)
Definition run_loop (set_order : list path -> list path) (o : options)
    (gi : list str) (cs : list entry) : loop_state :=
  let files := sorted_files set_order o (collect o gi [] (Dir (root_name o) cs)) in
  fold_left (loop_body o cs) files (initial_state (dir_tree_ascii o gi cs)).

(** [build_snapshot(opts)] over the tree whose root has the children [cs];
    [None] when an exception escapes. *)
Definition build_snapshot (set_order : list path -> list path) (o : options)
    (cs : list entry) : option str :=
  match gitignore_pats o cs with
  | None => None
  | Some gi =>
      let st := run_loop set_order o gi cs in
      Some (concat (out st ++ stats_footer o st))
  end.

(** ** What one iteration does with one file

    The three facts the loop body derives from the result of the reader,
    named so that the state after the loop can be stated. *)

Definition outcome (o : options) (cs : list entry) (p : path) : read_result :=
  read_text_safely (file_data cs p) (max_bytes o).

(** The test [bin_skip and not text] of line 304. *)
Definition skips (o : options) (cs : list entry) (p : path) : bool :=
  let '(text, _, bin_skip) := outcome o cs p in
  bin_skip && negb (nonempty text).

(** The file reaches line 316 with [truncated] set. *)
Definition truncates (o : options) (cs : list entry) (p : path) : bool :=
  let '(_, truncated, _) := outcome o cs p in
  negb (skips o cs p) && truncated.

(** The text put between the fences of the section of [p]. *)
Definition final_text (o : options) (cs : list entry) (p : path) : str :=
  let '(text, truncated, _) := outcome o cs p in
  strip_nl (if truncated && ((0 <? head_lines o)%Z || (0 <? tail_lines o)%Z)
            then shape o text else text).

Definition emitted (o : options) (cs : list entry) (files : list path)
    : list path :=
  filter (fun p => negb (skips o cs p)) files.

Definition sections_of (o : options) (cs : list entry) (files : list path)
    : list str :=
  map (fun p => section p (final_text o cs p)) (emitted o cs files).

(** The directories the walk descends into, below the directory [e] at
    [rel]: those that pass the directory rule, as do the ones above them. *)
Fixpoint kept_dirs (o : options) (rel : path) (e : entry) {struct e}
    : list path :=
  match e with
  | File _ _ => []
  | Dir _ cs =>
      flat_map (fun c =>
                  match c with
                  | Dir n _ =>
                      if dir_rule o n
                      then (rel ++ [n]) :: kept_dirs o (rel ++ [n]) c else []
                  | File _ _ => []
                  end) cs
  end.

End Core.

(** ** Iteration order of a set

    [set(files)] holds every distinct path once; the order in which it hands
    them out is fixed by the hashes of the paths, which change from one
    process to the next. *)

Definition set_iteration (set_order : list path -> list path) : Prop :=
  forall l, Permutation (set_order l) (nodup path_eq_dec l).

Definition insertion_order (l : list path) : list path := nodup path_eq_dec l.
Definition reverse_order (l : list path) : list path :=
  rev (nodup path_eq_dec l).

(** No two paths of [l] have the same key. *)
Definition distinct_keys (key : path -> str) (l : list path) : Prop :=
  forall p q, In p l -> In q l -> key p = key q -> p = q.

(** ** The same tree, listed in another order *)

Inductive same_tree : entry -> entry -> Prop :=
| same_file n d : same_tree (File n d) (File n d)
| same_dir n cs cs' : same_listing cs cs' -> same_tree (Dir n cs) (Dir n cs')
with same_listing : list entry -> list entry -> Prop :=
| listing_nil : same_listing [] []
| listing_cons e e' l l' :
    same_tree e e' -> same_listing l l' -> same_listing (e :: l) (e' :: l')
| listing_swap e1 e2 l : same_listing (e1 :: e2 :: l) (e2 :: e1 :: l)
| listing_trans l1 l2 l3 :
    same_listing l1 l2 -> same_listing l2 l3 -> same_listing l1 l3.

Scheme same_tree_ind2 := Minimality for same_tree Sort Prop
  with same_listing_ind2 := Minimality for same_listing Sort Prop.

(** ** Concrete library functions and inputs *)

Definition lower_char (c : N) : N := if between 65 90 c then (c + 32)%N else c.

(** [str.lower] on strings whose cased characters are ASCII. *)
Definition ascii_lower (s : str) : str := map lower_char s.

(** [fnmatch.fnmatch] on patterns without wildcard characters. *)
Definition literal_fnmatch (name pat : str) : bool := str_eqb name pat.

Definition ascii_lib (fm : str -> str -> bool) : PyLib :=
  {| fnmatch := fm; lower := ascii_lower |}.

Definition bytes_of (s : string) : bytes :=
  map byte_of_ascii (list_ascii_of_string s).

(** [opts] with no key but [root]: every option takes its default. *)
Definition default_opts (root : list str) : options :=
  {| opt_root := root; opt_include_exts := None; opt_exclude_dirs := None;
     opt_exclude_files := None; opt_include_globs := None;
     opt_exclude_globs := None; opt_respect_gitignore := None;
     opt_max_bytes := None; opt_head_lines := None; opt_tail_lines := None;
     opt_show_stats := None |}.

(** [default_opts] with a byte cap and head and tail line counts. *)
Definition capped_opts (root : list str) (cap head tail : Z) : options :=
  {| opt_root := root; opt_include_exts := None; opt_exclude_dirs := None;
     opt_exclude_files := None; opt_include_globs := None;
     opt_exclude_globs := None; opt_respect_gitignore := None;
     opt_max_bytes := Some cap; opt_head_lines := Some head;
     opt_tail_lines := Some tail; opt_show_stats := None |}.

(** The text of a file whose lines are [lines], each ended by a newline. *)
Definition text_of_lines (lines : list string) : bytes :=
  flat_map (fun l => bytes_of l ++ [Byte.x0a]) lines.

(** The tree of the first scenario: a.py, b.bin and .git/ignored.py. *)
Definition scenario_tree : list entry :=
  [File (lit "a.py") (Some (bytes_of "print(1)"));
   File (lit "b.bin") (Some [Byte.x00; Byte.x01; Byte.x02]);
   Dir (lit ".git") [File (lit "ignored.py") (Some (bytes_of "x = 1"))]].

(** The file of the second scenario: five lines of nine bytes each. *)
Definition big_py_lines : list string :=
  ["line1 = 1"; "line2 = 2"; "line3 = 3"; "line4 = 4"; "line5 = 5"]%string.

Definition big_py : bytes := text_of_lines big_py_lines.

Definition big_tree : list entry := [File (lit "big.py") (Some big_py)].

(** A readable file beside one with a NUL byte that passes the filter. *)
Definition nul_tree : list entry :=
  [File (lit "a.py") (Some (bytes_of "print(1)"));
   File (lit "b.py") (Some [Byte.x00; Byte.x01; Byte.x02])].

(** Two files whose names differ in case only. *)
Definition case_tree : list entry :=
  [File (lit "A.py") (Some (bytes_of "upper"));
   File (lit "a.py") (Some (bytes_of "lower"))].

(** ** Reading a document *)

(** The text whose lines are [ls], each ended by a newline. *)
Definition unlines (ls : list str) : str := flat_map (fun l => l ++ nl) ls.

(** [l] is one of the lines of [doc]. *)
Definition has_line (doc l : str) : bool := mem l (splitlines doc).

(** ** Command line and configuration glue *)

(** The separators of [_split_list]: the class [[\s,]]. *)
Definition is_sep (c : N) : bool := is_space c || (c =? 44)%N.

(** [re.split(r"[\s,]+", s)]: the pieces between the maximal runs of
    separators; [cur] is the piece being read, reversed, and [in_run] tells
    that the character before was a separator. *)
Fixpoint re_split_from (cur : str) (in_run : bool) (s : str) : list str :=
  match s with
  | [] => [rev cur]
  | c :: t =>
      if is_sep c then
        if in_run then re_split_from [] true t
        else rev cur :: re_split_from [] true t
      else re_split_from (c :: cur) false t
  end.

Definition _split_list (s : str) : list str :=
  filter nonempty (re_split_from [] false (strip s)).

(** A part that is not empty and holds no separator. *)
Definition clean (part : str) : Prop :=
  part <> [] /\ forallb (fun c => negb (is_sep c)) part = true.

(** A Python dictionary with string keys, in insertion order. *)
Definition dict (V : Type) : Type := list (str * V).

(** [d.get(k)] *)
Fixpoint dict_get {V} (d : dict V) (k : str) : option V :=
  match d with
  | [] => None
  | (k', v) :: r => if str_eqb k' k then Some v else dict_get r k
  end.

(** [d[k] = v] *)
Fixpoint dict_set {V} (d : dict V) (k : str) (v : V) : dict V :=
  match d with
  | [] => [(k, v)]
  | (k', v') :: r =>
      if str_eqb k' k then (k', v) :: r else (k', v') :: dict_set r k v
  end.

(** [merge_options(cli, cfg)]; a value is [None] for Python's [None]. *)
Definition merge_options {V} (cli cfg : dict (option V)) : dict (option V) :=
  fold_left (fun out kv =>
               match snd kv with
               | Some _ => dict_set out (fst kv) (snd kv)
               | None => out
               end) cli cfg.

(** Lines 411-420 of [main]: the defaults filled in before the build. *)
Definition fill_defaults (o : options) : options :=
  {| opt_root := opt_root o;
     opt_include_exts := Some (get (opt_include_exts o) DEFAULT_INCLUDE_EXTS);
     opt_exclude_dirs := Some (get (opt_exclude_dirs o) DEFAULT_EXCLUDE_DIRS);
     opt_exclude_files := Some (get (opt_exclude_files o) DEFAULT_EXCLUDE_FILES);
     opt_include_globs := Some (get (opt_include_globs o) []);
     opt_exclude_globs := Some (get (opt_exclude_globs o) []);
     opt_respect_gitignore := Some (get (opt_respect_gitignore o) false);
     opt_max_bytes := Some (get (opt_max_bytes o) 0%Z);
     opt_head_lines := Some (get (opt_head_lines o) 200%Z);
     opt_tail_lines := Some (get (opt_tail_lines o) 80%Z);
     opt_show_stats := Some (get (opt_show_stats o) true) |}.

(** ** Where the files of a tree are *)

(** [file_at cs p]: below a directory with children [cs], the path [p]
    leads through directories to a file. *)
Inductive file_at : list entry -> path -> Prop :=
| file_here cs n d : In (File n d) cs -> file_at cs [n]
| file_below cs n sub q :
    In (Dir n sub) cs -> file_at sub q -> file_at cs (n :: q).

(** Every byte of the content is an ASCII character other than NUL. *)
Definition ascii_text (content : bytes) : bool :=
  forallb (fun b => negb (is_nul b) && negb (high_bit b)) content.

(** ** When [stat] raises

    The definitions above are the program on a tree in which every entry can
    be examined.  An entry of a directory that can be listed but not
    searched has a name and nothing more: [stat] on it raises
    [PermissionError], which [Path.is_dir] passes on (Python up to 3.12).
    The tree renderer runs before the file walk (line 272) and calls
    [p.is_dir()] on every entry of every directory it prints (line 215),
    with no handler. *)

(** The paths the tree renderer calls [is_dir] on: the entries of the root
    and of every directory it descends into. *)
Fixpoint stat_probes (o : options) (rel : path) (e : entry) {struct e}
    : list path :=
  match e with
  | File _ _ => []
  | Dir _ cs =>
      flat_map (fun c =>
                  (rel ++ [entry_name c])
                  :: match c with
                     | Dir n _ =>
                         if dir_rule o n then stat_probes o (rel ++ [n]) c
                         else []
                     | File _ _ => []
                     end) cs
  end.

(** [build_snapshot] on a tree where [stat] raises on the paths [denied]
    tells: the exception of the first failing [is_dir] escapes. *)
Definition build_snapshot_denied {py : PyLib} (denied : path -> bool)
    (set_order : list path -> list path) (o : options) (cs : list entry)
    : option str :=
  match gitignore_pats o cs with
  | None => None
  | Some _ =>
      if existsb denied (stat_probes o [] (Dir (root_name o) cs)) then None
      else build_snapshot set_order o cs
  end.

(** A directory that can be listed but not searched, holding a.py, beside a
    readable file. *)
Definition locked_tree : list entry :=
  [File (lit "ok.py") (Some (bytes_of "print(1)"));
   Dir (lit "locked") [File (lit "a.py") None]].

Definition in_locked (p : path) : bool :=
  if path_eq_dec p [lit "locked"; lit "a.py"] then true else false.

(** The file of the second scenario at its stated size: five lines of nine
    bytes, each ended by U+2028 (three bytes), 60 bytes in all. *)
Definition big_py_60 : bytes :=
  flat_map (fun l => bytes_of l ++ [Byte.xe2; Byte.x80; Byte.xa8]) big_py_lines.

Definition big_tree_60 : list entry := [File (lit "big.py") (Some big_py_60)].

(** ** Options as the configuration file leaves them

    A key of [opts] is absent, present with the value [None] (a JSON
    [null]), or present with a value. *)

Inductive raw (A : Type) : Type :=
| Absent
| Null
| Val (v : A).

Arguments Absent {A}.
Arguments Null {A}.
Arguments Val {A} v.

Record raw_options := {
  raw_root : list str;
  raw_include_exts : raw (list str);
  raw_exclude_dirs : raw (list str);
  raw_exclude_files : raw (list str);
  raw_include_globs : raw (list str);
  raw_exclude_globs : raw (list str);
  raw_respect_gitignore : raw bool;
  raw_max_bytes : raw Z;
  raw_head_lines : raw Z;
  raw_tail_lines : raw Z;
  raw_show_stats : raw bool
}.

(** [opts.setdefault(k, d)]: only an absent key is set. *)
Definition setdefault {A} (r : raw A) (d : A) : raw A :=
  match r with Absent => Val d | Null => Null | Val v => Val v end.

(** [if opts.get(k) is None: opts[k] = d] *)
Definition set_if_none {A} (r : raw A) (d : A) : raw A :=
  match r with Absent => Val d | Null => Val d | Val v => Val v end.

(** Lines 411-420 of [main]. *)
Definition main_fill (r : raw_options) : raw_options :=
  {| raw_root := raw_root r;
     raw_include_exts := setdefault (raw_include_exts r) DEFAULT_INCLUDE_EXTS;
     raw_exclude_dirs := setdefault (raw_exclude_dirs r) DEFAULT_EXCLUDE_DIRS;
     raw_exclude_files := setdefault (raw_exclude_files r) DEFAULT_EXCLUDE_FILES;
     raw_include_globs := setdefault (raw_include_globs r) [];
     raw_exclude_globs := setdefault (raw_exclude_globs r) [];
     raw_respect_gitignore := set_if_none (raw_respect_gitignore r) false;
     raw_max_bytes := set_if_none (raw_max_bytes r) 0%Z;
     raw_head_lines := set_if_none (raw_head_lines r) 200%Z;
     raw_tail_lines := set_if_none (raw_tail_lines r) 80%Z;
     raw_show_stats := set_if_none (raw_show_stats r) true |}.

(** What lines 243-253 read from one key; the outer [None] is a
    [TypeError].  [set(None)], [list(None)] and [int(None)] raise;
    [bool(None)] is [False]. *)
Definition read_list (r : raw (list str)) : option (option (list str)) :=
  match r with Absent => Some None | Null => None | Val l => Some (Some l) end.

Definition read_int (r : raw Z) : option (option Z) :=
  match r with Absent => Some None | Null => None | Val z => Some (Some z) end.

Definition read_bool (r : raw bool) : option (option bool) :=
  match r with
  | Absent => Some None
  | Null => Some (Some false)
  | Val b => Some (Some b)
  end.

(** The options [build_snapshot] works with, or [None] when a conversion
    of lines 243-253 raises. *)
Definition options_read (r : raw_options) : option options :=
  match read_list (raw_include_exts r), read_list (raw_exclude_dirs r),
        read_list (raw_exclude_files r), read_list (raw_include_globs r),
        read_list (raw_exclude_globs r) with
  | Some ie, Some ed, Some ef, Some ig, Some eg =>
      match read_bool (raw_respect_gitignore r), read_int (raw_max_bytes r),
            read_int (raw_head_lines r), read_int (raw_tail_lines r),
            read_bool (raw_show_stats r) with
      | Some rg, Some mb, Some hl, Some tl, Some ss =>
          Some {| opt_root := raw_root r; opt_include_exts := ie;
                  opt_exclude_dirs := ed; opt_exclude_files := ef;
                  opt_include_globs := ig; opt_exclude_globs := eg;
                  opt_respect_gitignore := rg; opt_max_bytes := mb;
                  opt_head_lines := hl; opt_tail_lines := tl;
                  opt_show_stats := ss |}
      | _, _, _, _, _ => None
      end
  | _, _, _, _, _ => None
  end.

(** [build_snapshot(opts)] from the keys as they are. *)
Definition build_snapshot_raw {py : PyLib}
    (set_order : list path -> list path) (r : raw_options) (cs : list entry)
    : option str :=
  match options_read r with
  | None => None
  | Some o => build_snapshot set_order o cs
  end.

(** No key is present with the value [None]. *)
Definition no_null (r : raw_options) : Prop :=
  raw_include_exts r <> Null /\ raw_exclude_dirs r <> Null
  /\ raw_exclude_files r <> Null /\ raw_include_globs r <> Null
  /\ raw_exclude_globs r <> Null /\ raw_respect_gitignore r <> Null
  /\ raw_max_bytes r <> Null /\ raw_head_lines r <> Null
  /\ raw_tail_lines r <> Null /\ raw_show_stats r <> Null.

(** Options with the keys absent but [show_stats], which is [ss]. *)
Definition raw_with_stats (ss : raw bool) : raw_options :=
  {| raw_root := [lit "proj"]; raw_include_exts := Absent;
     raw_exclude_dirs := Absent; raw_exclude_files := Absent;
     raw_include_globs := Absent; raw_exclude_globs := Absent;
     raw_respect_gitignore := Absent; raw_max_bytes := Absent;
     raw_head_lines := Absent; raw_tail_lines := Absent;
     raw_show_stats := ss |}.

(** ** Indentation of a tree line *)

(** One unit of indentation: the [extension] of a directory above. *)
Definition is_extension (u : str) : Prop := u = lit "|   " \/ u = lit "    ".

Definition is_connector (c : str) : Prop := c = lit "|-- " \/ c = lit "`-- ".

(** A package with a module and a package below it. *)
Definition nested_tree : list entry :=
  [File (lit "main.py") (Some (bytes_of "import pkg"));
   Dir (lit "pkg")
     [File (lit "mod.py") (Some (bytes_of "x = 1"));
      Dir (lit "sub") [File (lit "deep.py") (Some (bytes_of "y = 2"))]]].


(** * Properties *)

(** ** Binary sniffer *)

Lemma count_high_filter (sample : bytes) :
  count_high sample = length (filter high_bit sample).
Proof.
  induction sample as [|b t IH]; simpl; [reflexivity|].
  destruct (high_bit b); simpl; now rewrite IH.
Qed.

Lemma existsb_is_nul (sample : bytes) :
  existsb is_nul sample = true <-> In Byte.x00 sample.
Proof.
  rewrite existsb_exists. split.
  - intros [b [Hin Hb]]. unfold is_nul in Hb.
    destruct b; try discriminate Hb. exact Hin.
  - intros Hin. exists Byte.x00. split; [exact Hin|reflexivity].
Qed.

Lemma Qgtb_ratio (k n : nat) :
  Qgtb (Z.of_nat k # Pos.of_nat (S n)) (30 # 100) = true
  <-> (3 * Z.of_nat (S n) < 10 * Z.of_nat k)%Z.
Proof.
  unfold Qgtb, Qcompare. cbn [Qnum Qden].
  assert (Hp : Z.pos (Pos.of_nat (S n)) = Z.of_nat (S n)) by lia.
  rewrite Hp.
  destruct (Z.compare_spec (Z.of_nat k * 100) (30 * Z.of_nat (S n)));
    split; intros; try discriminate; try reflexivity; lia.
Qed.

Lemma ratio_Qdiv (k n : nat) :
  (3 # 10 < inject_Z (Z.of_nat k) / inject_Z (Z.of_nat (S n)))%Q
  <-> (3 * Z.of_nat (S n) < 10 * Z.of_nat k)%Z.
Proof.
  assert (Hp : Z.of_nat (S n) = Z.pos (Pos.of_nat (S n))) by lia.
  rewrite Hp at 1. rewrite <- Qmake_Qdiv.
  unfold Qlt. cbn [Qnum Qden]. rewrite <- Hp. lia.
Qed.

(** C6. An empty sample is not binary; a sample with a NUL byte is binary;
    any other sample is binary exactly when the fraction of its bytes above
    0x7F is strictly greater than 3/10. *)
Theorem looks_binary_classification (sample : bytes) :
  let high := length (filter high_bit sample) in
  (sample = [] -> looks_binary sample = false)
  /\ (In Byte.x00 sample -> looks_binary sample = true)
  /\ (sample <> [] -> ~ In Byte.x00 sample ->
      (looks_binary sample = true
       <-> (3 # 10 < inject_Z (Z.of_nat high)
                     / inject_Z (Z.of_nat (length sample)))%Q)).
Proof.
  intros high. split; [|split].
  - intros ->. reflexivity.
  - intros Hin. destruct sample as [|b t]; [destruct Hin|].
    unfold looks_binary. apply existsb_is_nul in Hin. now rewrite Hin.
  - intros Hne Hnul. destruct sample as [|b t]; [congruence|].
    unfold looks_binary.
    destruct (existsb is_nul (b :: t)) eqn:E.
    + apply existsb_is_nul in E. contradiction.
    + unfold high. rewrite <- count_high_filter.
      change (length (b :: t)) with (S (length t)).
      now rewrite Qgtb_ratio, ratio_Qdiv.
Qed.

Lemma looks_binary_classification_witness :
  looks_binary [] = false
  /\ looks_binary [Byte.x41; Byte.x00] = true
  /\ (looks_binary [Byte.xff; Byte.x41; Byte.x42] = true
      <-> (3 # 10 < inject_Z 1 / inject_Z 3)%Q).
Proof.
  split; [|split].
  - destruct (looks_binary_classification []) as [H _].
    apply H. reflexivity.
  - destruct (looks_binary_classification [Byte.x41; Byte.x00]) as [_ [H _]].
    apply H. simpl. right. left. reflexivity.
  - destruct (looks_binary_classification [Byte.xff; Byte.x41; Byte.x42])
      as [_ [_ H]].
    apply H.
    + discriminate.
    + simpl. intros [E|[E|[E|[]]]]; discriminate.
Defined.

(** The boundary of the threshold: three bytes in ten is not enough. *)
Example looks_binary_three_in_ten :
  looks_binary (repeat Byte.xff 3 ++ repeat Byte.x41 7) = false
  /\ looks_binary (repeat Byte.xff 4 ++ repeat Byte.x41 7) = true.
Proof. split; reflexivity. Qed.

(** ** Bounded reader *)

Lemma length_firstn_succ {A} (l : list A) (n : Z) :
  (0 <= n < Z.of_nat (length l))%Z ->
  Z.of_nat (length (firstn (Z.to_nat (n + 1)) l)) = (n + 1)%Z.
Proof.
  intros H. rewrite length_firstn. lia.
Qed.

Lemma buffered_read_prefix (content : bytes) (n : Z) :
  (0 <= n)%Z -> buffered_read content n = Some (firstn (Z.to_nat n) content).
Proof.
  intros H. unfold buffered_read.
  destruct (n <? -1)%Z eqn:E1; [lia|].
  destruct (n =? -1)%Z eqn:E2; [lia|reflexivity].
Qed.

Lemma read_whole (content : bytes) (mb : Z) :
  (mb = 0 \/ Z.of_nat (length content) <= mb)%Z ->
  read_text_safely (Some content) mb =
    if looks_binary content then ([], false, true)
    else (decode Replace content, false, false).
Proof.
  intros H. unfold read_text_safely, skipped_result.
  assert (E : negb (mb =? 0)%Z && (mb <? Z.of_nat (length content))%Z = false).
  { destruct H as [->|H]; [reflexivity|].
    apply andb_false_iff. right. apply Z.ltb_ge. exact H. }
  now rewrite E.
Qed.

Lemma read_capped (content : bytes) (mb : Z) :
  (0 < mb < Z.of_nat (length content))%Z ->
  read_text_safely (Some content) mb =
    if looks_binary (firstn (Z.to_nat (mb + 1)) content) then ([], false, true)
    else (decode Replace (firstn (Z.to_nat (mb + 1)) content), true, false).
Proof.
  intros [Hpos Hlt]. unfold read_text_safely, skipped_result.
  assert (E : negb (mb =? 0)%Z && (mb <? Z.of_nat (length content))%Z = true).
  { apply andb_true_iff. split.
    - apply negb_true_iff, Z.eqb_neq. lia.
    - apply Z.ltb_lt. exact Hlt. }
  rewrite E, buffered_read_prefix by lia. reflexivity.
Qed.

(** C2. Without a cap, or when the file is not larger than the cap, the
    whole file is read: binary content gives the skipped result with empty
    text, any other content is decoded with replacement and is not
    truncated.  When the file is larger than a positive cap, exactly
    [max_bytes + 1] bytes are read; a binary sample is skipped, any other
    sample is decoded with replacement and marked truncated. *)
Theorem read_text_safely_spec (content : bytes) (mb : Z) :
  let size := Z.of_nat (length content) in
  ((mb = 0 \/ size <= mb)%Z ->
     read_text_safely (Some content) mb =
       if looks_binary content then ([], false, true)
       else (decode Replace content, false, false))
  /\ ((0 < mb < size)%Z ->
      exists data,
        buffered_read content (mb + 1) = Some data
        /\ data = firstn (Z.to_nat (mb + 1)) content
        /\ Z.of_nat (length data) = (mb + 1)%Z
        /\ read_text_safely (Some content) mb =
             if looks_binary data then ([], false, true)
             else (decode Replace data, true, false)).
Proof.
  intros size. split.
  - apply read_whole.
  - intros H. exists (firstn (Z.to_nat (mb + 1)) content).
    split; [apply buffered_read_prefix; lia|]. split; [reflexivity|].
    split; [apply length_firstn_succ; fold size; lia|].
    now apply read_capped.
Qed.

Lemma read_text_safely_witness :
  read_text_safely (Some (bytes_of "print(1)")) 0 =
    (lit "print(1)", false, false)
  /\ exists data,
       buffered_read big_py 11 = Some data
       /\ data = firstn 11 big_py
       /\ Z.of_nat (length data) = 11%Z
       /\ read_text_safely (Some big_py) 10 =
            if looks_binary data then ([], false, true)
            else (decode Replace data, true, false).
Proof.
  split.
  - destruct (read_text_safely_spec (bytes_of "print(1)") 0) as [H _].
    rewrite H; [reflexivity|left; reflexivity].
  - destruct (read_text_safely_spec big_py 10) as [_ H].
    apply H. vm_compute. split; reflexivity.
Defined.

(** The decoder never raises: malformed input comes out with U+FFFD where
    the ill-formed bytes stood. *)
Example decode_replaces_malformed :
  decode Replace [Byte.x61; Byte.xff; Byte.x62; Byte.xe2; Byte.x82] =
    [97; 65533; 98; 65533]%N
  /\ decode Replace [Byte.xe2; Byte.x82; Byte.xac] = [8364%N]
  /\ decode Ignore [Byte.x61; Byte.xff; Byte.x62] = [97; 98]%N.
Proof. repeat split; reflexivity. Qed.

(** ** The loop over the files *)

Section LoopProperties.

Context {py : PyLib}.
Variables (o : options) (cs : list entry).

Lemma loop_body_skip (st : loop_state) (p : path) :
  skips o cs p = true ->
  loop_body o cs st p =
    {| out := out st; total_files := S (total_files st);
       truncated_files := truncated_files st;
       skipped_binaries := S (skipped_binaries st) |}.
Proof.
  unfold skips, loop_body, outcome.
  destruct (read_text_safely (file_data cs p) (max_bytes o)) as [[text tr] bs].
  intros ->. reflexivity.
Qed.

Lemma loop_body_emit (st : loop_state) (p : path) :
  skips o cs p = false ->
  loop_body o cs st p =
    {| out := out st ++ [section p (final_text o cs p)];
       total_files := S (total_files st);
       truncated_files :=
         if truncates o cs p then S (truncated_files st)
         else truncated_files st;
       skipped_binaries := skipped_binaries st |}.
Proof.
  unfold truncates, final_text, skips, loop_body, outcome.
  destruct (read_text_safely (file_data cs p) (max_bytes o)) as [[text tr] bs].
  intros ->. reflexivity.
Qed.

(** The state after the loop: the sections of the files that were not
    skipped, in the order of the list, and the three counters. *)
Lemma fold_loop (files : list path) (st : loop_state) :
  fold_left (loop_body o cs) files st =
    {| out := out st ++ sections_of o cs files;
       total_files := total_files st + length files;
       truncated_files :=
         truncated_files st + length (filter (truncates o cs) files);
       skipped_binaries :=
         skipped_binaries st + length (filter (skips o cs) files) |}.
Proof.
  revert st. induction files as [|p files IH]; intros st.
  - simpl. unfold sections_of, emitted. simpl.
    rewrite app_nil_r, !Nat.add_0_r. now destruct st.
  - simpl fold_left. rewrite IH. unfold sections_of, emitted. simpl filter.
    destruct (skips o cs p) eqn:Hs.
    + rewrite (loop_body_skip st p Hs). simpl.
      assert (Ht : truncates o cs p = false).
      { unfold truncates. rewrite Hs.
        now destruct (outcome o cs p) as [[? ?] ?]. }
      rewrite Ht. f_equal; lia.
    + rewrite (loop_body_emit st p Hs). simpl.
      rewrite <- app_assoc. simpl.
      destruct (truncates o cs p); simpl; f_equal; lia.
Qed.

Lemma filter_length_app {A} (f : A -> bool) (l1 l2 : list A) :
  length (filter f (l1 ++ l2)) = length (filter f l1) + length (filter f l2).
Proof. now rewrite filter_app, length_app. Qed.

Lemma unreadable_skips (p : path) :
  file_data cs p = None -> skips o cs p = true.
Proof. unfold skips, outcome. intros ->. reflexivity. Qed.

End LoopProperties.

(** ** Sorting *)

Lemma str_leb_refl (a : str) : str_leb a a = true.
Proof.
  induction a as [|x a IH]; simpl; [reflexivity|].
  now rewrite N.ltb_irrefl.
Qed.

Lemma str_leb_total (a b : str) : str_leb a b = true \/ str_leb b a = true.
Proof.
  revert b. induction a as [|x a IH]; intros [|y b]; simpl; auto.
  destruct (N.ltb_spec x y), (N.ltb_spec y x); auto; lia.
Qed.

Lemma str_leb_antisym (a b : str) :
  str_leb a b = true -> str_leb b a = true -> a = b.
Proof.
  revert b. induction a as [|x a IH]; intros [|y b]; simpl;
    try discriminate; auto.
  destruct (N.ltb_spec x y), (N.ltb_spec y x); try discriminate; try lia.
  intros H1 H2. assert (x = y) by lia. subst. f_equal. auto.
Qed.

Lemma str_leb_trans (a b c : str) :
  str_leb a b = true -> str_leb b c = true -> str_leb a c = true.
Proof.
  revert b c. induction a as [|x a IH]; intros [|y b] [|z c]; simpl;
    try discriminate; auto.
  destruct (N.ltb_spec x y), (N.ltb_spec y z), (N.ltb_spec y x),
    (N.ltb_spec z y), (N.ltb_spec x z), (N.ltb_spec z x);
    try discriminate; try lia; auto.
  apply IH.
Qed.

Section Sorting.

Context {A : Type} (key : A -> str).

Let le (a b : A) : Prop := str_leb (key a) (key b) = true.
Let leb (a b : A) : bool := str_leb (key a) (key b).

Lemma insert_by_perm (x : A) (l : list A) :
  Permutation (insert_by leb x l) (x :: l).
Proof.
  induction l as [|y l IH]; simpl; [reflexivity|].
  destruct (leb x y); [reflexivity|].
  rewrite IH. apply perm_swap.
Qed.

Lemma sorted_by_key_perm (l : list A) : Permutation (sorted_by_key key l) l.
Proof.
  unfold sorted_by_key, sorted. induction l as [|x l IH]; simpl.
  - reflexivity.
  - eapply perm_trans; [apply insert_by_perm|now constructor].
Qed.

Lemma insert_by_sorted (x : A) (l : list A) :
  StronglySorted le l -> StronglySorted le (insert_by leb x l).
Proof.
  induction 1 as [|y l Hs IH Hall]; simpl.
  - repeat constructor.
  - destruct (leb x y) eqn:E.
    + constructor; [now constructor|].
      constructor; [exact E|].
      eapply Forall_impl; [|exact Hall].
      intros z Hz. unfold le in *. eapply str_leb_trans; eauto.
    + constructor; [exact IH|].
      assert (Hyx : le y x).
      { unfold le, leb in *. destruct (str_leb_total (key x) (key y)); congruence. }
      eapply Permutation_Forall; [symmetry; apply insert_by_perm|].
      now constructor.
Qed.

Lemma sorted_by_key_sorted (l : list A) :
  StronglySorted le (sorted_by_key key l).
Proof.
  unfold sorted_by_key, sorted. induction l as [|x l IH]; simpl.
  - constructor.
  - apply insert_by_sorted. exact IH.
Qed.

(** Two sorted lists with the same elements are equal when no two elements
    share a key. *)
Lemma sorted_unique (l1 l2 : list A) :
  StronglySorted le l1 -> StronglySorted le l2 -> Permutation l1 l2 ->
  (forall x y, In x l1 -> In y l1 -> key x = key y -> x = y) ->
  l1 = l2.
Proof.
  intros H1. revert l2. induction H1 as [|a l1 Hs1 IH Ha]; intros l2 H2 Hp Hk.
  - apply Permutation_nil in Hp. now subst.
  - destruct H2 as [|b l2 Hs2 Hb].
    + symmetry in Hp. apply Permutation_nil in Hp. discriminate.
    + assert (Hab : a = b).
      { assert (Ia : In a (b :: l2))
          by (eapply Permutation_in; [exact Hp|now left]).
        assert (Ib : In b (a :: l1))
          by (eapply Permutation_in; [symmetry; exact Hp|now left]).
        destruct Ia as [->|Ia]; [reflexivity|].
        destruct Ib as [->|Ib]; [reflexivity|].
        rewrite Forall_forall in Ha, Hb.
        apply Hk; [now left|now right|].
        apply str_leb_antisym; [apply Ha|apply Hb]; assumption. }
      subst b. f_equal. apply IH.
      * exact Hs2.
      * eapply Permutation_cons_inv. exact Hp.
      * intros x y Hx Hy. apply Hk; now right.
Qed.

(** The result of sorting depends on the elements alone when no two of
    them share a key. *)
Lemma sorted_by_key_unique (l1 l2 : list A) :
  Permutation l1 l2 ->
  (forall x y, In x l1 -> In y l1 -> key x = key y -> x = y) ->
  sorted_by_key key l1 = sorted_by_key key l2.
Proof.
  intros Hp Hk. apply sorted_unique.
  - apply sorted_by_key_sorted.
  - apply sorted_by_key_sorted.
  - rewrite !sorted_by_key_perm. exact Hp.
  - intros x y Hx Hy. apply Hk.
    + eapply Permutation_in; [apply sorted_by_key_perm|exact Hx].
    + eapply Permutation_in; [apply sorted_by_key_perm|exact Hy].
Qed.

End Sorting.

(** ** The file walk *)

Lemma entry_induction (P : entry -> Prop) :
  (forall n d, P (File n d)) ->
  (forall n cs, Forall P cs -> P (Dir n cs)) ->
  forall e, P e.
Proof.
  intros Hf Hd. fix IH 1. intros [n d|n cs].
  - apply Hf.
  - apply Hd. induction cs as [|c cs IHcs]; constructor; [apply IH|exact IHcs].
Qed.

Section Walk.

Context {py : PyLib}.
Variables (o : options) (gi : list str).

(** What the walk gathers from one entry of a directory at [rel]: from a
    file, and from a directory. *)
Let files_of (rel : path) (c : entry) : list path :=
  match c with
  | File n _ => if include_pred o gi false (rel ++ [n]) then [rel ++ [n]] else []
  | Dir _ _ => []
  end.

Let dirs_of (rel : path) (c : entry) : list path :=
  match c with
  | Dir n _ => if dir_rule o n then collect o gi (rel ++ [n]) c else []
  | File _ _ => []
  end.

Lemma collect_dir (rel : path) (n : str) (cs : list entry) :
  collect o gi rel (Dir n cs)
  = flat_map (files_of rel) cs ++ flat_map (dirs_of rel) cs.
Proof. reflexivity. Qed.

Lemma collect_cons (rel : path) (n : str) (c : entry) (cs : list entry) :
  Permutation (collect o gi rel (Dir n (c :: cs)))
              ((files_of rel c ++ dirs_of rel c) ++ collect o gi rel (Dir n cs)).
Proof.
  rewrite !collect_dir. cbn [flat_map].
  rewrite <- !app_assoc. apply Permutation_app_head.
  rewrite !app_assoc. apply Permutation_app_tail. apply Permutation_app_comm.
Qed.

(** Every path the walk collects passes the file rule. *)
Lemma collect_passes (e : entry) :
  forall rel p, In p (collect o gi rel e) -> include_pred o gi false p = true.
Proof.
  induction e as [n d|n cs IH] using entry_induction; intros rel p Hin.
  - destruct Hin.
  - rewrite collect_dir in Hin. apply in_app_or in Hin.
    destruct Hin as [Hin|Hin];
      apply in_flat_map in Hin; destruct Hin as [c [Hc Hin]].
    + destruct c as [m d|m sub]; [|destruct Hin]. cbn [files_of] in Hin.
      destruct (include_pred o gi false (rel ++ [m])) eqn:E; [|destruct Hin].
      destruct Hin as [<-|[]]. exact E.
    + destruct c as [m d|m sub]; [destruct Hin|]. cbn [dirs_of] in Hin.
      destruct (dir_rule o m); [|destruct Hin].
      rewrite Forall_forall in IH. eapply IH; eauto.
Qed.

(** Listing the directories in another order permutes what is collected. *)
Lemma collect_same_tree (e e' : entry) :
  same_tree e e' ->
  forall rel, Permutation (collect o gi rel e) (collect o gi rel e').
Proof.
  intros H.
  induction H using same_tree_ind2 with
    (P0 := fun cs cs' => forall n rel,
             Permutation (collect o gi rel (Dir n cs))
                         (collect o gi rel (Dir n cs'))).
  - reflexivity.
  - intros rel. apply IHsame_tree.
  - reflexivity.
  - intros n rel. rewrite !collect_cons.
    apply Permutation_app; [|apply IHsame_tree0].
    destruct H as [m d|m cs cs' Hl]; [reflexivity|].
    cbn [files_of dirs_of]. rewrite !app_nil_l.
    destruct (dir_rule o m); [apply IHsame_tree|reflexivity].
  - intros n rel. rewrite !collect_cons. apply Permutation_app_swap_app.
  - intros n rel. etransitivity; [apply IHsame_tree|apply IHsame_tree0].
Qed.

End Walk.

(** ** Read failures *)

(** X17. A file whose read raises comes back from the reader as skipped with
    empty text; the loop emits no section for it and counts it as included
    and as skipped; the sections and the counters of the other files are
    what they are without it. *)
Theorem unreadable_file_is_skipped {py : PyLib} (o : options)
    (cs : list entry) (p : path) :
  file_data cs p = None ->
  read_text_safely (file_data cs p) (max_bytes o) = ([], false, true)
  /\ (forall st,
        loop_body o cs st p =
          {| out := out st; total_files := S (total_files st);
             truncated_files := truncated_files st;
             skipped_binaries := S (skipped_binaries st) |})
  /\ (forall before after st,
        let with_p := fold_left (loop_body o cs) (before ++ p :: after) st in
        let without := fold_left (loop_body o cs) (before ++ after) st in
        out with_p = out without
        /\ total_files with_p = S (total_files without)
        /\ truncated_files with_p = truncated_files without
        /\ skipped_binaries with_p = S (skipped_binaries without)).
Proof.
  intros Hnone.
  pose proof (unreadable_skips o cs p Hnone) as Hs.
  split; [now rewrite Hnone|]. split.
  - intros st. now apply loop_body_skip.
  - intros before after st with_p without. subst with_p without.
    rewrite !fold_loop. cbn [out total_files truncated_files skipped_binaries].
    assert (Ht : truncates o cs p = false).
    { unfold truncates. rewrite Hs. now destruct (outcome o cs p) as [[? ?] ?]. }
    unfold sections_of, emitted.
    rewrite !filter_app, !length_app. cbn [filter length].
    rewrite Hs, Ht. cbn [negb length]. repeat split; lia.
Qed.

Lemma unreadable_file_is_skipped_witness :
  let py := ascii_lib literal_fnmatch in
  let o := default_opts [lit "proj"] in
  let cs := [File (lit "a.py") (Some (bytes_of "print(1)"));
             File (lit "b.py") None] in
  let st := fold_left (loop_body o cs) [[lit "a.py"]; [lit "b.py"]]
              (initial_state []) in
  skipped_binaries st = 1 /\ total_files st = 2
  /\ out st = header [] ++ [section [lit "a.py"] (lit "print(1)")].
Proof.
  intros py o cs st.
  destruct (unreadable_file_is_skipped o cs [lit "b.py"] eq_refl)
    as [_ [_ H1]].
  pose proof (H1 [[lit "a.py"]] [] (initial_state [])) as H.
  cbv zeta in H. cbn [app] in H. destruct H as [Ho [Ht [_ Hs]]].
  split; [|split].
  - eapply eq_trans; [exact Hs|reflexivity].
  - eapply eq_trans; [exact Ht|reflexivity].
  - eapply eq_trans; [exact Ho|reflexivity].
Defined.

(** ** Truncation by the byte cap *)

Lemma shape_lines (o : options) (text : str) :
  shape o text =
    join nl (firstn (Z.to_nat (head_lines o)) (splitlines text)
             ++ [[]; marker; []]
             ++ skipn (length (splitlines text) - Z.to_nat (tail_lines o))
                      (splitlines text)).
Proof.
  unfold shape, slice_head, slice_tail.
  destruct (Z.ltb_spec 0 (head_lines o)) as [Hh|Hh];
    destruct (Z.ltb_spec 0 (tail_lines o)) as [Ht|Ht]; try reflexivity.
  - replace (Z.to_nat (tail_lines o)) with 0 by lia.
    now rewrite Nat.sub_0_r, skipn_all.
  - now replace (Z.to_nat (head_lines o)) with 0 by lia.
  - replace (Z.to_nat (tail_lines o)) with 0 by lia.
    replace (Z.to_nat (head_lines o)) with 0 by lia.
    now rewrite Nat.sub_0_r, skipn_all.
Qed.



(** ** Counters *)

Lemma filter_split_length {A} (f : A -> bool) (l : list A) :
  length l = length (filter (fun x => negb (f x)) l) + length (filter f l).
Proof.
  induction l as [|x l IH]; simpl; [reflexivity|].
  destruct (f x); simpl; lia.
Qed.

Lemma set_iteration_in (set_order : list path -> list path) (l : list path) :
  set_iteration set_order -> forall p, In p (set_order l) <-> In p l.
Proof.
  intros H p. rewrite <- (nodup_In path_eq_dec l p). split; intros Hin.
  - eapply Permutation_in; [apply H|exact Hin].
  - eapply Permutation_in; [symmetry; apply H|exact Hin].
Qed.

Lemma sorted_files_perm {py : PyLib} (set_order : list path -> list path)
    (o : options) (l : list path) :
  set_iteration set_order ->
  Permutation (sorted_files set_order o l) (nodup path_eq_dec l).
Proof.
  intros H. unfold sorted_files. rewrite sorted_by_key_perm. apply H.
Qed.

Lemma sorted_files_in {py : PyLib} (set_order : list path -> list path)
    (o : options) (l : list path) :
  set_iteration set_order ->
  forall p, In p (sorted_files set_order o l) <-> In p l.
Proof.
  intros H p. rewrite <- (nodup_In path_eq_dec l p).
  pose proof (sorted_files_perm set_order o l H) as Hp. split; intros Hin.
  - eapply Permutation_in; [exact Hp|exact Hin].
  - eapply Permutation_in; [symmetry; exact Hp|exact Hin].
Qed.

Lemma insertion_order_is_set : set_iteration insertion_order.
Proof. intros l. reflexivity. Qed.

Lemma reverse_order_is_set : set_iteration reverse_order.
Proof. intros l. unfold reverse_order. symmetry. apply Permutation_rev. Qed.

(** C10. [files_included] is the number of the distinct paths that the walk
    collected, each of which passed the file rule; the files skipped as
    binary or unreadable are among them, and each of these adds one to
    both counters and no section.  The sections are as many as the files
    included less the files skipped, and with a skipped file there are
    fewer sections than files included. *)
Theorem files_included_counts_skipped {py : PyLib}
    (set_order : list path -> list path) (o : options) (gi : list str)
    (cs : list entry) :
  set_iteration set_order ->
  let collected := collect o gi [] (Dir (root_name o) cs) in
  let files := sorted_files set_order o collected in
  let st := run_loop set_order o gi cs in
  (forall p, In p files -> include_pred o gi false p = true)
  /\ total_files st = length (nodup path_eq_dec collected)
  /\ skipped_binaries st = length (filter (skips o cs) files)
  /\ out st = header (dir_tree_ascii o gi cs) ++ sections_of o cs files
  /\ total_files st = length (sections_of o cs files) + skipped_binaries st
  /\ (forall p st0, skips o cs p = true ->
        total_files (loop_body o cs st0 p) = S (total_files st0)
        /\ skipped_binaries (loop_body o cs st0 p) = S (skipped_binaries st0)
        /\ out (loop_body o cs st0 p) = out st0)
  /\ (show_stats o = true ->
        In (lit "- files_included: " ++ str_of_nat (total_files st) ++ nl)
           (stats_footer o st))
  /\ (let st1 := @run_loop (ascii_lib literal_fnmatch) insertion_order
                   (default_opts [lit "proj"]) [] nul_tree in
      total_files st1 = 2 /\ skipped_binaries st1 = 1
      /\ length (out st1) = length (header []) + 1).
Proof.
  intros Hset collected files st.
  assert (Hst : st = {| out := header (dir_tree_ascii o gi cs)
                              ++ sections_of o cs files;
                        total_files := length files;
                        truncated_files :=
                          length (filter (truncates o cs) files);
                        skipped_binaries :=
                          length (filter (skips o cs) files) |}).
  { unfold st, run_loop. fold collected. fold files. rewrite fold_loop.
    reflexivity. }
  rewrite Hst. cbn [out total_files skipped_binaries].
  repeat split.
  - intros p Hin. apply (sorted_files_in set_order o collected Hset) in Hin.
    eapply collect_passes. exact Hin.
  - apply Permutation_length. now apply sorted_files_perm.
  - unfold sections_of, emitted. rewrite length_map.
    apply filter_split_length.
  - now rewrite (loop_body_skip o cs st0 p).
  - now rewrite (loop_body_skip o cs st0 p).
  - now rewrite (loop_body_skip o cs st0 p).
  - intros Hshow. unfold stats_footer. rewrite Hshow.
    cbn [total_files]. right. right. left. reflexivity.
Qed.

Lemma files_included_counts_skipped_witness :
  let py := ascii_lib literal_fnmatch in
  let st := run_loop insertion_order (default_opts [lit "proj"]) [] nul_tree in
  total_files st = 2 /\ length (out st) = 6 /\ skipped_binaries st = 1.
Proof.
  intros py st.
  destruct (files_included_counts_skipped insertion_order
              (default_opts [lit "proj"]) [] nul_tree insertion_order_is_set)
    as [_ [H1 [H2 [H3 _]]]].
  split; [|split].
  - eapply eq_trans; [exact H1|reflexivity].
  - unfold st. rewrite H3. reflexivity.
  - eapply eq_trans; [exact H2|reflexivity].
Defined.

(** ** Path filter *)

Lemma matches_any_glob_spec {py : PyLib} (rel : str) (globs : list str) :
  matches_any_glob rel globs = true
  <-> exists pat, In pat globs /\ fnmatch rel pat = true.
Proof. unfold matches_any_glob. apply existsb_exists. Qed.

Lemma mem_spec (x : str) (s : list str) : mem x s = true <-> In x s.
Proof.
  unfold mem. rewrite existsb_exists. split.
  - intros [y [Hin Heq]]. unfold str_eqb in Heq.
    destruct (list_eq_dec N.eq_dec x y); [now subst|discriminate].
  - intros Hin. exists x. split; [exact Hin|]. unfold str_eqb.
    destruct (list_eq_dec N.eq_dec x x); [reflexivity|contradiction].
Qed.

(** C1. For a file the checks run in this order and the first that fails
    excludes it: a configured exclude glob matches the relative path; a
    loaded gitignore pattern matches it; include globs are configured and
    none matches it; the base name is an excluded file name.  A file that
    passes all four is included exactly when its lower-cased extension is
    one of the included extensions. *)
Theorem include_pred_file_rule {py : PyLib} (o : options) (gi : list str)
    (p : path) :
  let rel := rel_str p in
  let excluded_by_glob :=
    exclude_globs o <> [] /\
    exists pat, In pat (exclude_globs o) /\ fnmatch rel pat = true in
  let ignored :=
    gi <> [] /\ exists pat, In pat gi /\ fnmatch rel pat = true in
  let not_selected :=
    include_globs o <> [] /\
    forall pat, In pat (include_globs o) -> fnmatch rel pat = false in
  let excluded_by_name := In (path_name p) (exclude_files o) in
  (excluded_by_glob -> include_pred o gi false p = false)
  /\ (~ excluded_by_glob -> ignored -> include_pred o gi false p = false)
  /\ (~ excluded_by_glob -> ~ ignored -> not_selected ->
      include_pred o gi false p = false)
  /\ (~ excluded_by_glob -> ~ ignored -> ~ not_selected ->
      excluded_by_name -> include_pred o gi false p = false)
  /\ (~ excluded_by_glob -> ~ ignored -> ~ not_selected ->
      ~ excluded_by_name ->
      (include_pred o gi false p = true
       <-> In (lower (suffix (path_name p)))
              (map lower (get (opt_include_exts o) DEFAULT_INCLUDE_EXTS)))).
Proof.
  intros rel excluded_by_glob ignored not_selected excluded_by_name.
  assert (Hne : forall (l : list str), nonempty l = true <-> l <> []).
  { intros [|x l]; simpl; split; congruence. }
  assert (H1 : nonempty (exclude_globs o)
               && matches_any_glob rel (exclude_globs o) = true
               <-> excluded_by_glob).
  { unfold excluded_by_glob.
    now rewrite andb_true_iff, Hne, matches_any_glob_spec. }
  assert (H2 : nonempty gi && matches_any_glob rel gi = true <-> ignored).
  { unfold ignored. now rewrite andb_true_iff, Hne, matches_any_glob_spec. }
  assert (H3 : nonempty (include_globs o)
               && negb (matches_any_glob rel (include_globs o)) = true
               <-> not_selected).
  { unfold not_selected. rewrite andb_true_iff, Hne, negb_true_iff.
    unfold matches_any_glob.
    split; intros [Ha Hb]; (split; [exact Ha|]).
    - intros pat Hin.
      destruct (fnmatch rel pat) eqn:E; [|reflexivity].
      assert (existsb (fun pat0 => fnmatch rel pat0) (include_globs o) = true)
        by (apply existsb_exists; eauto).
      congruence.
    - destruct (existsb (fun pat => fnmatch rel pat) (include_globs o)) eqn:E;
        [|reflexivity].
      apply existsb_exists in E. destruct E as [pat [Hin Hm]].
      rewrite (Hb pat Hin) in Hm. discriminate. }
  assert (H4 : mem (path_name p) (exclude_files o) = true <-> excluded_by_name)
    by apply mem_spec.
  unfold include_pred. fold rel.
  destruct (nonempty (exclude_globs o)
            && matches_any_glob rel (exclude_globs o)) eqn:E1.
  { assert excluded_by_glob by now apply H1.
    repeat split; intros; try reflexivity; contradiction. }
  assert (N1 : ~ excluded_by_glob) by (rewrite <- H1; congruence).
  destruct (nonempty gi && matches_any_glob rel gi) eqn:E2.
  { assert ignored by now apply H2.
    repeat split; intros; try reflexivity; contradiction. }
  assert (N2 : ~ ignored) by (rewrite <- H2; congruence).
  destruct (nonempty (include_globs o)
            && negb (matches_any_glob rel (include_globs o))) eqn:E3.
  { assert not_selected by now apply H3.
    repeat split; intros; try reflexivity; contradiction. }
  assert (N3 : ~ not_selected) by (rewrite <- H3; congruence).
  destruct (mem (path_name p) (exclude_files o)) eqn:E4.
  { assert excluded_by_name by now apply H4.
    repeat split; intros; try reflexivity; contradiction. }
  assert (N4 : ~ excluded_by_name) by (rewrite <- H4; congruence).
  repeat split; intros; try contradiction.
  - now apply mem_spec.
  - now apply mem_spec.
Qed.

Lemma include_pred_file_rule_witness :
  let py := ascii_lib literal_fnmatch in
  let o := default_opts [lit "proj"] in
  include_pred o [lit "a.py"] false [lit "a.py"] = false
  /\ include_pred o [] false [lit "scratch.py"] = false
  /\ (include_pred o [] false [lit "src"; lit "Main.PY"] = true
      <-> In (lower (suffix (lit "Main.PY"))) (map lower DEFAULT_INCLUDE_EXTS)).
Proof.
  intros py o.
  assert (Hno : forall gi q,
             ~ (exclude_globs o <> [] /\
                exists pat, In pat (exclude_globs o)
                            /\ fnmatch (rel_str q) pat = true)
             /\ ~ (include_globs o <> [] /\
                   forall pat, In pat (include_globs o)
                               -> fnmatch (rel_str q) pat = false)
             /\ (gi = [] ->
                 ~ (gi <> [] /\
                    exists pat, In pat gi /\ fnmatch (rel_str q) pat = true))).
  { intros gi q. split; [|split].
    - intros [H _]. now apply H.
    - intros [H _]. now apply H.
    - intros -> [H _]. now apply H. }
  split; [|split].
  - destruct (include_pred_file_rule o [lit "a.py"] [lit "a.py"])
      as [_ [H _]].
    destruct (Hno [lit "a.py"] [lit "a.py"]) as [Ha _].
    apply H; [exact Ha|].
    split; [discriminate|]. exists (lit "a.py"). split; [now left|reflexivity].
  - destruct (include_pred_file_rule o [] [lit "scratch.py"])
      as [_ [_ [_ [H _]]]].
    destruct (Hno [] [lit "scratch.py"]) as [Ha [Hb Hc]].
    apply H; [exact Ha|exact (Hc eq_refl)|exact Hb|].
    right. left. reflexivity.
  - destruct (include_pred_file_rule o [] [lit "src"; lit "Main.PY"])
      as [_ [_ [_ [_ H]]]].
    destruct (Hno [] [lit "src"; lit "Main.PY"]) as [Ha [Hb Hc]].
    apply H; [exact Ha|exact (Hc eq_refl)|exact Hb|].
    simpl. intros [E|[E|[]]]; discriminate.
Defined.

(** ** The two scenarios *)

Lemma set_iteration_singleton (set_order : list path -> list path) (p : path) :
  set_iteration set_order -> set_order [p] = [p].
Proof.
  intros H. specialize (H [p]). cbn in H.
  apply Permutation_sym, Permutation_length_1_inv in H. exact H.
Qed.

Lemma sorted_files_singleton {py : PyLib} (set_order : list path -> list path)
    (o : options) (p : path) :
  set_iteration set_order -> sorted_files set_order o [p] = [p].
Proof.
  intros H. unfold sorted_files. now rewrite set_iteration_singleton.
Qed.

(** C5 as amended. In the first scenario with default options the tree lists
    a.py alone, the section of a.py shows print(1), and the footer reports
    one file included and no file skipped: b.bin is left out by its
    extension and is never read. *)
Theorem default_scenario_document (fm : str -> str -> bool)
    (set_order : list path -> list path) (root : list str) :
  set_iteration set_order ->
  @build_snapshot (ascii_lib fm) set_order (default_opts root) scenario_tree
  = Some (unlines [lit "# Project Snapshot"; lit "## Directory Tree";
                   lit "```text"]
          ++ last root [] ++ nl
          ++ unlines [lit "`-- a.py"; lit "```"; [];
                      lit "## a.py"; lit "```python"; lit "print(1)";
                      lit "```"; [];
                      lit "---"; lit "## Snapshot Stats";
                      lit "- files_included: 1";
                      lit "- files_skipped_as_binary_or_unreadable: 0"]).
Proof.
  intros Hset. unfold build_snapshot.
  change (gitignore_pats (default_opts root) scenario_tree)
    with (Some (@nil str)).
  cbv iota beta. unfold run_loop.
  replace (@collect (ascii_lib fm) (default_opts root) []
             [] (Dir (root_name (default_opts root)) scenario_tree))
    with [[lit "a.py"]] by (vm_compute; reflexivity).
  rewrite (sorted_files_singleton (py := ascii_lib fm)) by exact Hset.
  unfold dir_tree_ascii, root_name. cbn [opt_root default_opts].
  generalize (last root []). intros name.
  f_equal. cbn. rewrite <- !app_assoc. cbn. reflexivity.
Qed.

Lemma default_scenario_document_witness :
  exists doc,
    @build_snapshot (ascii_lib literal_fnmatch) insertion_order
      (default_opts [lit "tmp"; lit "proj"]) scenario_tree = Some doc
    /\ has_line doc (lit "proj") = true
    /\ has_line doc (lit "`-- a.py") = true
    /\ has_line doc (lit "print(1)") = true
    /\ has_line doc (lit "- files_included: 1") = true
    /\ has_line doc (lit "- files_skipped_as_binary_or_unreadable: 0") = true.
Proof.
  eexists. split.
  - apply (default_scenario_document literal_fnmatch insertion_order
             [lit "tmp"; lit "proj"] insertion_order_is_set).
  - repeat split; vm_compute; reflexivity.
Defined.

(** C5 as stated fails: the footer of the first scenario does not report a
    skipped file. *)
Lemma default_scenario_reports_no_skip :
  exists doc,
    @build_snapshot (ascii_lib literal_fnmatch) insertion_order
      (default_opts [lit "tmp"; lit "proj"]) scenario_tree = Some doc
    /\ has_line doc (lit "- files_included: 1") = true
    /\ has_line doc (lit "- files_skipped_as_binary_or_unreadable: 1") = false
    /\ skipped_binaries
         (@run_loop (ascii_lib literal_fnmatch) insertion_order
            (default_opts [lit "tmp"; lit "proj"]) [] scenario_tree) = 0
    /\ @include_pred (ascii_lib literal_fnmatch)
         (default_opts [lit "tmp"; lit "proj"]) [] false [lit "b.bin"] = false.
Proof.
  eexists. split; [vm_compute; reflexivity|].
  repeat split; vm_compute; reflexivity.
Qed.

(** C4 as amended. With a cap of 10 bytes and one head and one tail line,
    the section of a file big.py larger than 10 bytes is made from the
    first 11 bytes alone: the first and the last line of these bytes,
    decoded, around an empty line, the marker line and another empty line,
    the whole stripped of the newlines at its ends.  Nothing past the
    eleventh byte reaches the document. *)
Theorem capped_scenario_document (fm : str -> str -> bool)
    (set_order : list path -> list path) (root : list str) (content : bytes) :
  set_iteration set_order ->
  10 < length content ->
  looks_binary (firstn 11 content) = false ->
  let lines := splitlines (decode Replace (firstn 11 content)) in
  let text :=
    strip_nl (join nl (firstn 1 lines ++ [[]; marker; []]
                       ++ skipn (length lines - 1) lines)) in
  @build_snapshot (ascii_lib fm) set_order (capped_opts root 10 1 1)
    [File (lit "big.py") (Some content)]
  = Some (unlines [lit "# Project Snapshot"; lit "## Directory Tree";
                   lit "```text"]
          ++ last root [] ++ nl
          ++ unlines [lit "`-- big.py"; lit "```"; [];
                      lit "## big.py"; lit "```python"]
          ++ text ++ nl
          ++ unlines [lit "```"; [];
                      lit "---"; lit "## Snapshot Stats";
                      lit "- files_included: 1";
                      lit "- files_truncated_by_bytes: 1";
                      lit "- files_skipped_as_binary_or_unreadable: 0"]).
Proof.
  intros Hset Hlen Hbin lines text.
  set (o := capped_opts root 10 1 1).
  set (cs := [File (lit "big.py") (Some content)]).
  set (p := [lit "big.py"] : path).
  assert (Hout : outcome o cs p
                 = (decode Replace (firstn 11 content), true, false)).
  { unfold outcome.
    change (file_data cs p) with (Some content).
    change (max_bytes o) with 10%Z.
    rewrite read_capped by lia.
    change (Z.to_nat (10 + 1)) with 11. now rewrite Hbin. }
  assert (Hs : skips o cs p = false).
  { unfold skips. now rewrite Hout. }
  assert (Ht : truncates o cs p = true).
  { unfold truncates. now rewrite Hs, Hout. }
  assert (Hf : final_text o cs p = text).
  { unfold final_text. rewrite Hout.
    change ((0 <? head_lines o)%Z || (0 <? tail_lines o)%Z) with true.
    cbn [andb]. rewrite shape_lines. reflexivity. }
  unfold build_snapshot.
  change (gitignore_pats o cs) with (Some (@nil str)).
  cbv iota beta. unfold run_loop.
  replace (@collect (ascii_lib fm) o [] [] (Dir (root_name o) cs))
    with [p] by (vm_compute; reflexivity).
  rewrite (sorted_files_singleton (py := ascii_lib fm)) by exact Hset.
  cbn [fold_left]. rewrite (loop_body_emit (py := ascii_lib fm)) by exact Hs.
  rewrite Ht, Hf. unfold dir_tree_ascii, root_name.
  change (opt_root o) with root.
  generalize (last root []). intros name. generalize text. intros body.
  f_equal. cbn. rewrite <- !app_assoc. cbn. reflexivity.
Qed.

Lemma capped_scenario_document_witness :
  exists doc,
    @build_snapshot (ascii_lib literal_fnmatch) insertion_order
      (capped_opts [lit "proj"] 10 1 1) big_tree_60 = Some doc
    /\ splitlines doc
       = [lit "# Project Snapshot"; lit "## Directory Tree"; lit "```text";
          lit "proj"; lit "`-- big.py"; lit "```"; [];
          lit "## big.py"; lit "```python";
          lit "line1 = 1" ++ [65533%N]; []; lit "... [truncated] ..."; [];
          lit "line1 = 1" ++ [65533%N];
          lit "```"; [];
          lit "---"; lit "## Snapshot Stats"; lit "- files_included: 1";
          lit "- files_truncated_by_bytes: 1";
          lit "- files_skipped_as_binary_or_unreadable: 0"].
Proof.
  eexists. split.
  - apply (capped_scenario_document literal_fnmatch insertion_order
             [lit "proj"] big_py_60 insertion_order_is_set).
    + vm_compute. lia.
    + reflexivity.
  - vm_compute. reflexivity.
Defined.

(** C4 as stated fails.  The file has five lines of nine bytes, each ended
    by U+2028, 60 bytes in all; the capped read stops inside the first line
    terminator, so the head line and the tail line are both line 1 followed
    by U+FFFD, and line 5 is not in the document. *)
Lemma capped_scenario_loses_line_five :
  exists doc,
    @build_snapshot (ascii_lib literal_fnmatch) insertion_order
      (capped_opts [lit "proj"] 10 1 1) big_tree_60 = Some doc
    /\ length big_py_60 = 60
    /\ splitlines (decode Replace big_py_60) = map lit big_py_lines
    /\ has_line doc marker = true
    /\ has_line doc (lit "line1 = 1" ++ [65533%N]) = true
    /\ has_line doc (lit "line1 = 1") = false
    /\ has_line doc (lit "line5 = 5") = false.
Proof.
  eexists. split; [vm_compute; reflexivity|].
  repeat split; vm_compute; reflexivity.
Qed.

(** ** Order of the sections *)

Lemma nodup_perm (l l' : list path) :
  Permutation l l' ->
  Permutation (nodup path_eq_dec l) (nodup path_eq_dec l').
Proof.
  intros H. apply NoDup_Permutation; try apply NoDup_nodup.
  intros p. rewrite !nodup_In. split; apply Permutation_in;
    [exact H|symmetry; exact H].
Qed.

(** The files come out of the sort in one order, whatever the order in
    which they were collected and the set hands them out, when no two of
    them share a key. *)
Lemma sorted_files_unique {py : PyLib} (so so' : list path -> list path)
    (o : options) (l l' : list path) :
  set_iteration so -> set_iteration so' -> Permutation l l' ->
  distinct_keys (sort_key o) l ->
  sorted_files so o l = sorted_files so' o l'.
Proof.
  intros Hso Hso' Hp Hk. unfold sorted_files. apply sorted_by_key_unique.
  - rewrite (Hso l), (Hso' l'). now apply nodup_perm.
  - intros x y Hx Hy. apply Hk; now apply (set_iteration_in so l Hso).
Qed.

Lemma section_title {py : PyLib} (p : path) (text : str) :
  exists rest, section p text = lit "## " ++ rel_str p ++ nl ++ rest.
Proof. unfold section. eexists. reflexivity. Qed.

(** C8 as amended. The files are the distinct collected paths, sorted by
    lower-cased full path.  Each of them that is not skipped as binary or
    unreadable has exactly one section, titled with its path relative to the
    root, and the sections stand in the order of the sorted files.  The
    document is the header with the tree, then these sections, then the
    footer.  When no two collected paths have the same lower-cased full
    path, the order of the files does not depend on the order in which
    directories are listed nor on the order in which the set iterates. *)
Theorem sections_follow_sorted_files {py : PyLib}
    (set_order : list path -> list path) (o : options) (gi : list str)
    (cs : list entry) :
  set_iteration set_order ->
  let collected := collect o gi [] (Dir (root_name o) cs) in
  let files := sorted_files set_order o collected in
  let st := run_loop set_order o gi cs in
  NoDup files
  /\ (forall p, In p files <-> In p collected)
  /\ StronglySorted
       (fun p q => str_leb (sort_key o p) (sort_key o q) = true) files
  /\ out st = header (dir_tree_ascii o gi cs)
              ++ map (fun p => section p (final_text o cs p))
                     (emitted o cs files)
  /\ NoDup (emitted o cs files)
  /\ (forall p, In p (emitted o cs files) <-> In p files /\ skips o cs p = false)
  /\ (forall p text,
        exists rest, section p text = lit "## " ++ rel_str p ++ nl ++ rest)
  /\ (gitignore_pats o cs = Some gi ->
      build_snapshot set_order o cs
      = Some (concat (header (dir_tree_ascii o gi cs)
                      ++ map (fun p => section p (final_text o cs p))
                             (emitted o cs files)
                      ++ stats_footer o st)))
  /\ (distinct_keys (sort_key o) collected ->
      forall set_order' cs',
        set_iteration set_order' -> same_listing cs cs' ->
        sorted_files set_order' o (collect o gi [] (Dir (root_name o) cs'))
        = files).
Proof.
  intros Hset collected files st.
  assert (Hperm : Permutation files (nodup path_eq_dec collected))
    by now apply sorted_files_perm.
  assert (Hnd : NoDup files).
  { eapply Permutation_NoDup; [symmetry; exact Hperm|apply NoDup_nodup]. }
  assert (Hout : out st = header (dir_tree_ascii o gi cs)
                          ++ map (fun p => section p (final_text o cs p))
                                 (emitted o cs files)).
  { unfold st, run_loop. fold collected. fold files. rewrite fold_loop.
    reflexivity. }
  split; [exact Hnd|]. split; [now apply sorted_files_in|].
  split; [apply sorted_by_key_sorted|]. split; [exact Hout|].
  split; [now apply NoDup_filter|]. split.
  { intros p. unfold emitted. rewrite filter_In, negb_true_iff. reflexivity. }
  split; [apply section_title|]. split.
  - intros Hgi. unfold build_snapshot. rewrite Hgi. fold st.
    now rewrite Hout, <- app_assoc.
  - intros Hk set_order' cs' Hset' Hsame. symmetry.
    apply sorted_files_unique; try assumption.
    apply collect_same_tree. now constructor.
Qed.

Lemma sections_follow_sorted_files_witness :
  let py := ascii_lib literal_fnmatch in
  let o := default_opts [lit "proj"] in
  sorted_files reverse_order o
    (collect o [] [] (Dir (root_name o) (rev nul_tree)))
  = [[lit "a.py"]; [lit "b.py"]]
  /\ out (run_loop insertion_order o [] nul_tree)
     = header (dir_tree_ascii o [] nul_tree)
       ++ [section [lit "a.py"] (lit "print(1)")].
Proof.
  intros py o.
  destruct (sections_follow_sorted_files insertion_order o [] nul_tree
              insertion_order_is_set) as [_ [_ [_ [Hout [_ [_ [_ [_ Hind]]]]]]]].
  split.
  - eapply eq_trans; [|reflexivity].
    apply Hind.
    + intros p q Hp Hq Hkey. vm_compute in Hp, Hq.
      destruct Hp as [<-|[<-|[]]]; destruct Hq as [<-|[<-|[]]];
        try reflexivity; vm_compute in Hkey; discriminate.
    + apply reverse_order_is_set.
    + apply listing_swap.
  - eapply eq_trans; [exact Hout|reflexivity].
Defined.

(** C8 as stated fails: b.py passes the filter and is counted as included,
    yet the document has no section for it. *)
Lemma included_file_without_section :
  let py := ascii_lib literal_fnmatch in
  let o := default_opts [lit "proj"] in
  exists doc,
    build_snapshot insertion_order o nul_tree = Some doc
    /\ include_pred o [] false [lit "b.py"] = true
    /\ In [lit "b.py"] (collect o [] [] (Dir (root_name o) nul_tree))
    /\ has_line doc (lit "- files_included: 2") = true
    /\ has_line doc (lit "## a.py") = true
    /\ has_line doc (lit "## b.py") = false.
Proof.
  intros py o. eexists. split; [vm_compute; reflexivity|].
  split; [reflexivity|]. split; [right; left; reflexivity|].
  repeat split; vm_compute; reflexivity.
Qed.

(** ** Two runs over the same tree *)

(** C9 fails on the code.  Two files whose full paths differ in case only
    have the same sort key; the stable sort leaves them in the order in which
    the set hands them out, and two admissible orders give two documents. *)
Theorem case_tie_gives_two_documents :
  let py := ascii_lib literal_fnmatch in
  let o := default_opts [lit "proj"] in
  set_iteration insertion_order
  /\ set_iteration reverse_order
  /\ sort_key o [lit "A.py"] = sort_key o [lit "a.py"]
  /\ option_map splitlines (build_snapshot insertion_order o case_tree)
     = Some (map lit
          ["# Project Snapshot"; "## Directory Tree"; "```text"; "proj";
           "|-- A.py"; "`-- a.py"; "```"; "";
           "## A.py"; "```python"; "upper"; "```"; "";
           "## a.py"; "```python"; "lower"; "```"; "";
           "---"; "## Snapshot Stats"; "- files_included: 2";
           "- files_skipped_as_binary_or_unreadable: 0"]%string)
  /\ option_map splitlines (build_snapshot reverse_order o case_tree)
     = Some (map lit
          ["# Project Snapshot"; "## Directory Tree"; "```text"; "proj";
           "|-- A.py"; "`-- a.py"; "```"; "";
           "## a.py"; "```python"; "lower"; "```"; "";
           "## A.py"; "```python"; "upper"; "```"; "";
           "---"; "## Snapshot Stats"; "- files_included: 2";
           "- files_skipped_as_binary_or_unreadable: 0"]%string)
  /\ build_snapshot insertion_order o case_tree
     <> build_snapshot reverse_order o case_tree.
Proof.
  intros py o.
  split; [apply insertion_order_is_set|].
  split; [apply reverse_order_is_set|].
  split; [reflexivity|].
  assert (H1 : option_map splitlines (build_snapshot insertion_order o case_tree)
               <> option_map splitlines (build_snapshot reverse_order o case_tree)).
  { vm_compute. discriminate. }
  split; [vm_compute; reflexivity|]. split; [vm_compute; reflexivity|].
  intros E. apply H1. now rewrite E.
Qed.

(** X1. When no two collected paths share a sort key, the document is the same
    for every order in which the set may iterate: two runs over an unchanged
    tree with the same options then give the same document. *)
Theorem build_snapshot_deterministic {py : PyLib}
    (so so' : list path -> list path) (o : options) (cs : list entry) :
  set_iteration so -> set_iteration so' ->
  (forall gi, gitignore_pats o cs = Some gi ->
     distinct_keys (sort_key o) (collect o gi [] (Dir (root_name o) cs))) ->
  build_snapshot so o cs = build_snapshot so' o cs.
Proof.
  intros Hso Hso' Hk. unfold build_snapshot.
  destruct (gitignore_pats o cs) as [gi|] eqn:Hgi; [|reflexivity].
  unfold run_loop.
  now rewrite (sorted_files_unique so so' o _ _ Hso Hso' (Permutation_refl _)
                 (Hk gi eq_refl)).
Qed.

Lemma build_snapshot_deterministic_witness :
  let py := ascii_lib literal_fnmatch in
  let o := default_opts [lit "proj"] in
  build_snapshot insertion_order o nul_tree
  = build_snapshot reverse_order o nul_tree.
Proof.
  intros py o.
  apply (build_snapshot_deterministic insertion_order reverse_order o nul_tree
           insertion_order_is_set reverse_order_is_set).
  intros gi Hgi p q Hp Hq Hkey.
  injection Hgi as <-. vm_compute in Hp, Hq.
  destruct Hp as [<-|[<-|[]]]; destruct Hq as [<-|[<-|[]]];
    try reflexivity; vm_compute in Hkey; discriminate.
Defined.

(** * Further properties of the code *)

(** ** The reader at its bounds *)



Lemma decode_ascii (e : errors) (l : bytes) :
  forallb (fun b => negb (high_bit b)) l = true ->
  decode e l = map Byte.to_N l.
Proof.
  induction l as [|b t IH]; [reflexivity|].
  cbn [forallb]. rewrite andb_true_iff. intros [Hb Ht].
  cbn [decode map]. cbv zeta.
  unfold high_bit in Hb. apply negb_true_iff, N.ltb_ge in Hb.
  assert (E : (Byte.to_N b <? 128)%N = true) by (apply N.ltb_lt; lia).
  rewrite E. f_equal. now apply IH.
Qed.

Lemma ascii_text_split (content : bytes) :
  ascii_text content = true ->
  existsb is_nul content = false
  /\ forallb (fun b => negb (high_bit b)) content = true.
Proof.
  unfold ascii_text. induction content as [|b t IH]; [auto|].
  cbn [forallb existsb]. rewrite !andb_true_iff. intros [[H1 H2] Ht].
  destruct (IH Ht) as [IH1 IH2]. rewrite IH1, IH2, H2.
  apply negb_true_iff in H1. rewrite H1. auto.
Qed.

Lemma ascii_text_not_binary (content : bytes) :
  ascii_text content = true -> looks_binary content = false.
Proof.
  intros H. destruct (ascii_text_split content H) as [Hnul Hhigh].
  destruct content as [|b t]; [reflexivity|].
  unfold looks_binary. rewrite Hnul.
  assert (Hc : count_high (b :: t) = 0).
  { rewrite count_high_filter.
    clear Hnul H. induction (b :: t) as [|x l IH]; [reflexivity|].
    cbn [forallb] in Hhigh. apply andb_true_iff in Hhigh.
    destruct Hhigh as [Hx Hl]. cbn [filter].
    apply negb_true_iff in Hx. rewrite Hx. now apply IH. }
  rewrite Hc. reflexivity.
Qed.

Lemma ascii_text_firstn (n : nat) (content : bytes) :
  ascii_text content = true -> ascii_text (firstn n content) = true.
Proof.
  unfold ascii_text. revert n.
  induction content as [|b t IH]; intros [|n] H; try reflexivity.
  cbn [firstn forallb] in *. apply andb_true_iff in H. destruct H as [Hb Ht].
  now rewrite Hb, IH.
Qed.

(** X6. A file of ASCII text without NUL bytes comes back character for
    character: the whole file without a cap or within it, its first
    [max_bytes + 1] characters, marked truncated, beyond a positive cap. *)
Theorem ascii_file_read_verbatim (content : bytes) (mb : Z) :
  ascii_text content = true ->
  ((mb = 0 \/ Z.of_nat (length content) <= mb)%Z ->
   read_text_safely (Some content) mb
   = (map Byte.to_N content, false, false))
  /\ ((0 < mb < Z.of_nat (length content))%Z ->
      read_text_safely (Some content) mb
      = (map Byte.to_N (firstn (Z.to_nat (mb + 1)) content), true, false)).
Proof.
  intros Ha. split; intros H.
  - rewrite read_whole by exact H.
    rewrite ascii_text_not_binary by exact Ha.
    rewrite decode_ascii; [reflexivity|].
    now destruct (ascii_text_split content Ha).
  - rewrite read_capped by exact H.
    pose proof (ascii_text_firstn (Z.to_nat (mb + 1)) content Ha) as Hf.
    rewrite ascii_text_not_binary by exact Hf.
    rewrite decode_ascii; [reflexivity|].
    now destruct (ascii_text_split _ Hf).
Qed.

Lemma ascii_file_read_verbatim_witness :
  read_text_safely (Some (bytes_of "print(1)")) 0
  = (lit "print(1)", false, false)
  /\ read_text_safely (Some (bytes_of "print(1)")) 3
     = (lit "prin", true, false).
Proof.
  destruct (ascii_file_read_verbatim (bytes_of "print(1)") 0 eq_refl)
    as [H0 _].
  destruct (ascii_file_read_verbatim (bytes_of "print(1)") 3 eq_refl)
    as [_ H3].
  split.
  - eapply eq_trans; [apply H0; left; reflexivity|reflexivity].
  - eapply eq_trans; [apply H3; vm_compute; split; reflexivity|reflexivity].
Defined.



(** X8. A negative cap is not refused.  At -1 the read asks for no byte and the
    file comes back empty and marked truncated; at -2 the read asks for the
    whole file, which comes back marked truncated; below -2 the read raises
    and the file is reported skipped. *)
Theorem negative_cap_behaviour (content : bytes) (mb : Z) :
  (mb = -1 -> read_text_safely (Some content) mb = ([], true, false))%Z
  /\ (mb = -2 ->
      read_text_safely (Some content) mb
      = if looks_binary content then ([], false, true)
        else (decode Replace content, true, false))%Z
  /\ (mb < -2 -> read_text_safely (Some content) mb = ([], false, true))%Z.
Proof.
  assert (Hcond : (mb < 0)%Z ->
            negb (mb =? 0)%Z && (mb <? Z.of_nat (length content))%Z = true).
  { intros H. apply andb_true_iff. split.
    - apply negb_true_iff, Z.eqb_neq. lia.
    - apply Z.ltb_lt. lia. }
  unfold read_text_safely, skipped_result. repeat split.
  - intros ->. rewrite Hcond by lia. reflexivity.
  - intros ->. rewrite Hcond by lia. reflexivity.
  - intros H. rewrite Hcond by lia. unfold buffered_read.
    assert (E : (mb + 1 <? -1)%Z = true) by (apply Z.ltb_lt; lia).
    now rewrite E.
Qed.

Lemma negative_cap_behaviour_witness :
  read_text_safely (Some (bytes_of "print(1)")) (-1) = ([], true, false)
  /\ read_text_safely (Some (bytes_of "print(1)")) (-2)
     = (lit "print(1)", true, false)
  /\ read_text_safely (Some (bytes_of "print(1)")) (-5) = ([], false, true).
Proof.
  split; [|split].
  - destruct (negative_cap_behaviour (bytes_of "print(1)") (-1)) as [H _].
    now apply H.
  - destruct (negative_cap_behaviour (bytes_of "print(1)") (-2))
      as [_ [H _]].
    eapply eq_trans; [now apply H|reflexivity].
  - destruct (negative_cap_behaviour (bytes_of "print(1)") (-5))
      as [_ [_ H]].
    now apply H.
Defined.

(** ** Stripping *)

Lemma lstrip_while_head (f : N -> bool) (s : str) (c : N) (t : str) :
  lstrip_while f s = c :: t -> f c = false.
Proof.
  induction s as [|x s IH]; simpl; [discriminate|].
  destruct (f x) eqn:E; [exact IH|]. intros H. injection H as <- _. exact E.
Qed.

Lemma lstrip_while_fixed (f : N -> bool) (s : str) :
  (forall c t, s = c :: t -> f c = false) -> lstrip_while f s = s.
Proof.
  destruct s as [|x s]; [reflexivity|]. intros H. simpl.
  now rewrite (H x s eq_refl).
Qed.

Lemma lstrip_while_snoc (f : N -> bool) (l : str) (x : N) :
  f x = false -> lstrip_while f (l ++ [x]) = lstrip_while f l ++ [x].
Proof.
  intros Hx. induction l as [|y l IH]; simpl; [now rewrite Hx|].
  destruct (f y); [exact IH|reflexivity].
Qed.

Lemma strip_while_first (f : N -> bool) (s : str) (c : N) (t : str) :
  strip_while f s = c :: t -> f c = false.
Proof.
  unfold strip_while. intros H.
  destruct (lstrip_while f s) as [|x a] eqn:Ea; [discriminate|].
  pose proof (lstrip_while_head f s x a Ea) as Hx.
  cbn [rev] in H. rewrite lstrip_while_snoc in H by exact Hx.
  rewrite rev_app_distr in H. cbn in H. injection H as <- _. exact Hx.
Qed.

Lemma strip_while_last (f : N -> bool) (s : str) (t : str) (c : N) :
  strip_while f s = t ++ [c] -> f c = false.
Proof.
  unfold strip_while. intros H.
  apply (f_equal (@rev N)) in H. rewrite rev_involutive, rev_app_distr in H.
  cbn in H. eapply lstrip_while_head. exact H.
Qed.

Lemma strip_while_idem (f : N -> bool) (s : str) :
  strip_while f (strip_while f s) = strip_while f s.
Proof.
  pose proof (strip_while_first f s) as Hfirst.
  unfold strip_while in *.
  set (b := lstrip_while f (rev (lstrip_while f s))) in *.
  rewrite (lstrip_while_fixed f (rev b)) by exact Hfirst.
  rewrite rev_involutive. f_equal. apply lstrip_while_fixed.
  intros c t Hb. eapply lstrip_while_head. exact Hb.
Qed.

(** ** Gitignore adapter *)

(** X11. Every pattern the adapter returns is a non-empty line of [.gitignore]
    that is no comment and carries no white space at either end; without a
    [.gitignore] in the root there is no pattern. *)
Theorem gitignore_patterns_are_clean (cs : list entry) (pats : list str) :
  apply_gitignore_patterns cs = Some pats ->
  (forall pat, In pat pats ->
     pat <> [] /\ startswith pat (lit "#") = false /\ strip pat = pat
     /\ exists data line,
          In (File (lit ".gitignore") (Some data)) cs
          /\ In line (splitlines (decode Ignore data)) /\ pat = strip line)
  /\ ((forall e, In e cs -> entry_name e <> lit ".gitignore") -> pats = []).
Proof.
  unfold apply_gitignore_patterns. intros H. split.
  - destruct (find _ cs) as [[n [data|]|n sub]|] eqn:Ef;
      try discriminate; [|injection H as <-; intros pat []].
    injection H as <-. intros pat Hin.
    apply filter_In in Hin. destruct Hin as [Hin Hok].
    apply andb_true_iff in Hok. destruct Hok as [Hne Hc].
    apply in_map_iff in Hin. destruct Hin as [line [<- Hline]].
    split; [intros E; rewrite E in Hne; discriminate|].
    split; [now apply negb_true_iff|].
    split; [apply strip_while_idem|].
    apply find_some in Ef. destruct Ef as [Hcs Hname].
    unfold str_eqb in Hname. cbn [entry_name] in Hname.
    destruct (list_eq_dec N.eq_dec n (lit ".gitignore")); [|discriminate].
    subst n. exists data, line. auto.
  - intros Hno. destruct (find _ cs) as [e|] eqn:Ef.
    + apply find_some in Ef. destruct Ef as [Hcs Hname].
      unfold str_eqb in Hname.
      destruct (list_eq_dec N.eq_dec (entry_name e) (lit ".gitignore"));
        [|discriminate].
      exfalso. now apply (Hno e Hcs).
    + now injection H as <-.
Qed.

Lemma gitignore_patterns_are_clean_witness :
  let cs := [File (lit ".gitignore")
               (Some (text_of_lines ["# build"; "  *.pyc  "; ""; "a.py"]%string))] in
  apply_gitignore_patterns cs = Some [lit "*.pyc"; lit "a.py"]
  /\ strip (lit "*.pyc") = lit "*.pyc".
Proof.
  intros cs. split; [reflexivity|].
  destruct (gitignore_patterns_are_clean cs [lit "*.pyc"; lit "a.py"] eq_refl)
    as [H _].
  destruct (H (lit "*.pyc") (or_introl eq_refl)) as [_ [_ [E _]]]. exact E.
Defined.

(** X12. Reading [.gitignore] is not guarded.  With [respect_gitignore] set, a
    [.gitignore] that is a directory or cannot be read makes the whole build
    raise; without the flag the file is never consulted and the build always
    returns a document. *)
Theorem unreadable_gitignore_aborts {py : PyLib}
    (set_order : list path -> list path) (o : options) (cs : list entry)
    (e : entry) :
  find (fun c => str_eqb (entry_name c) (lit ".gitignore")) cs = Some e ->
  (forall data, e <> File (entry_name e) (Some data)) ->
  (respect_gitignore o = true -> build_snapshot set_order o cs = None)
  /\ (respect_gitignore o = false ->
      build_snapshot set_order o cs
      = Some (concat (out (run_loop set_order o [] cs)
                      ++ stats_footer o (run_loop set_order o [] cs)))).
Proof.
  intros Hfind Hbad. unfold build_snapshot, gitignore_pats. split; intros ->.
  - unfold apply_gitignore_patterns. rewrite Hfind.
    destruct e as [n [data|]|n sub]; try reflexivity.
    exfalso. now apply (Hbad data).
  - reflexivity.
Qed.

Lemma unreadable_gitignore_aborts_witness :
  let py := ascii_lib literal_fnmatch in
  let cs := [File (lit "a.py") (Some (bytes_of "print(1)"));
             File (lit ".gitignore") None] in
  let o := default_opts [lit "proj"] in
  let strict :=
    {| opt_root := [lit "proj"]; opt_include_exts := None;
       opt_exclude_dirs := None; opt_exclude_files := None;
       opt_include_globs := None; opt_exclude_globs := None;
       opt_respect_gitignore := Some true; opt_max_bytes := None;
       opt_head_lines := None; opt_tail_lines := None;
       opt_show_stats := None |} in
  build_snapshot insertion_order strict cs = None
  /\ build_snapshot insertion_order o cs <> None.
Proof.
  intros py cs o strict.
  assert (Hbad : forall data,
             File (lit ".gitignore") None
             <> File (entry_name (File (lit ".gitignore") None)) (Some data))
    by (intros data; discriminate).
  split.
  - destruct (unreadable_gitignore_aborts insertion_order strict cs
                (File (lit ".gitignore") None) eq_refl Hbad) as [H _].
    now apply H.
  - destruct (unreadable_gitignore_aborts insertion_order o cs
                (File (lit ".gitignore") None) eq_refl Hbad) as [_ H].
    rewrite H by reflexivity. discriminate.
Defined.

(** ** The assembler at its bounds *)

(** X9. Without a cap no file is truncated: the counter stays at zero, the
    footer has no line for it, and the section of a readable text file holds
    the whole decoded file, stripped of the newlines at its ends. *)
Theorem no_cap_no_truncation {py : PyLib}
    (set_order : list path -> list path) (o : options) (gi : list str)
    (cs : list entry) :
  max_bytes o = 0%Z ->
  let st := run_loop set_order o gi cs in
  truncated_files st = 0
  /\ (forall p, truncates o cs p = false)
  /\ (forall p content,
        file_data cs p = Some content -> looks_binary content = false ->
        final_text o cs p = strip_nl (decode Replace content))
  /\ (show_stats o = true ->
      stats_footer o st
      = [lit "---" ++ nl; lit "## Snapshot Stats" ++ nl;
         lit "- files_included: " ++ str_of_nat (total_files st) ++ nl;
         lit "- files_skipped_as_binary_or_unreadable: "
         ++ str_of_nat (skipped_binaries st) ++ nl]).
Proof.
  intros Hcap st.
  assert (Hout : forall p, exists text bs, outcome o cs p = (text, false, bs)).
  { intros p. unfold outcome. rewrite Hcap.
    destruct (file_data cs p) as [content|]; [|now exists [], true].
    rewrite read_whole by (left; reflexivity).
    destruct (looks_binary content); eauto. }
  assert (Htr : forall p, truncates o cs p = false).
  { intros p. unfold truncates. destruct (Hout p) as [text [bs ->]].
    apply andb_false_r. }
  split; [|split; [exact Htr|split]].
  - unfold st, run_loop. rewrite fold_loop. cbn [truncated_files initial_state].
    induction (sorted_files set_order o _) as [|p l IH]; [reflexivity|].
    cbn [filter]. now rewrite Htr.
  - intros p content Hdata Hbin. unfold final_text, outcome.
    rewrite Hdata, Hcap, read_whole by (left; reflexivity).
    now rewrite Hbin.
  - intros Hshow. unfold stats_footer. rewrite Hshow, Hcap. reflexivity.
Qed.

Lemma no_cap_no_truncation_witness :
  let py := ascii_lib literal_fnmatch in
  truncated_files
    (run_loop insertion_order (default_opts [lit "proj"]) [] big_tree) = 0
  /\ final_text (default_opts [lit "proj"]) big_tree [lit "big.py"]
     = join nl (map lit big_py_lines).
Proof.
  intros py.
  destruct (no_cap_no_truncation insertion_order (default_opts [lit "proj"])
              [] big_tree eq_refl) as [H0 [_ [H _]]].
  split; [exact H0|].
  eapply eq_trans; [apply (H [lit "big.py"] big_py); reflexivity|reflexivity].
Defined.

(** X10. The text between the fences of a section neither starts nor ends with
    a newline. *)
Theorem section_text_is_stripped (o : options) (cs : list entry) (p : path) :
  (forall c rest, final_text o cs p = c :: rest -> c <> 10%N)
  /\ (forall init c, final_text o cs p = init ++ [c] -> c <> 10%N).
Proof.
  unfold final_text. destruct (outcome o cs p) as [[text tr] bs].
  unfold strip_nl. split.
  - intros c rest H. apply strip_while_first in H.
    now apply N.eqb_neq in H; auto.
  - intros init c H. apply strip_while_last in H.
    now apply N.eqb_neq in H; auto.
Qed.

(** Shaping keeps at most [head_lines] lines, the marker between two empty
    lines, and at most [tail_lines] lines, whatever the length of the text. *)
Theorem shape_keeps_head_and_tail (o : options) (text : str) :
  exists head tail,
    shape o text = join nl (head ++ [[]; marker; []] ++ tail)
    /\ length head <= Z.to_nat (head_lines o)
    /\ length tail <= Z.to_nat (tail_lines o)
    /\ head = firstn (length head) (splitlines text)
    /\ tail = skipn (length (splitlines text) - length tail) (splitlines text).
Proof.
  rewrite shape_lines.
  set (lines := splitlines text).
  exists (firstn (Z.to_nat (head_lines o)) lines),
         (skipn (length lines - Z.to_nat (tail_lines o)) lines).
  split; [reflexivity|]. rewrite length_firstn, length_skipn.
  split; [lia|]. split; [lia|]. split.
  - destruct (Nat.le_gt_cases (Z.to_nat (head_lines o)) (length lines)).
    + f_equal. lia.
    + rewrite Nat.min_r by lia. now rewrite firstn_all, firstn_all2 by lia.
  - f_equal. lia.
Qed.

(** ** What the walk collects *)

Lemma file_at_nonempty (cs : list entry) (q : path) : file_at cs q -> q <> [].
Proof. intros [? ? ? ?|? ? ? ? ? ?]; discriminate. Qed.

Lemma removelast_cons {A} (x : A) (q : list A) :
  q <> [] -> removelast (x :: q) = x :: removelast q.
Proof. destruct q; [congruence|reflexivity]. Qed.

Section Collected.

Context {py : PyLib}.
Variables (o : options) (gi : list str).

Let kept (d : str) : Prop := dir_rule o d = true.

Lemma collect_sound (e : entry) :
  forall rel p,
    In p (collect o gi rel e) ->
    exists q, p = rel ++ q /\ file_at (children e) q
              /\ Forall kept (removelast q)
              /\ include_pred o gi false p = true.
Proof.
  induction e as [n d|n cs IH] using entry_induction; intros rel p Hin.
  - destruct Hin.
  - rewrite collect_dir in Hin. apply in_app_or in Hin.
    destruct Hin as [Hin|Hin];
      apply in_flat_map in Hin; destruct Hin as [c [Hc Hin]].
    + destruct c as [m d|m sub]; [|destruct Hin].
      destruct (include_pred o gi false (rel ++ [m])) eqn:E; [|destruct Hin].
      destruct Hin as [<-|[]]. exists [m].
      split; [reflexivity|]. split; [econstructor; exact Hc|].
      split; [constructor|exact E].
    + destruct c as [m d|m sub]; [destruct Hin|].
      destruct (dir_rule o m) eqn:Ed; [|destruct Hin].
      rewrite Forall_forall in IH.
      destruct (IH _ Hc _ _ Hin) as [q [-> [Hq [Hk Hp]]]].
      exists (m :: q). rewrite <- app_assoc in *.
      split; [reflexivity|]. split; [econstructor; eassumption|].
      split; [|exact Hp].
      rewrite removelast_cons by (eapply file_at_nonempty; exact Hq).
      constructor; assumption.
Qed.

Lemma collect_complete (cs : list entry) (q : path) :
  file_at cs q ->
  forall rel n,
    Forall kept (removelast q) ->
    include_pred o gi false (rel ++ q) = true ->
    In (rel ++ q) (collect o gi rel (Dir n cs)).
Proof.
  induction 1 as [cs m d Hin|cs m sub q Hin Hq IH]; intros rel n Hk Hp.
  - rewrite collect_dir. apply in_or_app. left.
    apply in_flat_map. exists (File m d). split; [exact Hin|].
    rewrite Hp. now left.
  - rewrite collect_dir. apply in_or_app. right.
    apply in_flat_map. exists (Dir m sub). split; [exact Hin|].
    rewrite removelast_cons in Hk by (eapply file_at_nonempty; exact Hq).
    inversion Hk as [|? ? Hm Hrest]; subst. unfold kept in Hm. rewrite Hm.
    specialize (IH (rel ++ [m]) m Hrest).
    rewrite <- app_assoc in IH. now apply IH.
Qed.

End Collected.

(** X2. The walk collects exactly the files of the tree that pass the file rule
    and lie below directories that all pass the directory rule: nothing
    under a pruned directory is collected, and no file that qualifies is
    missed. *)
Theorem collect_characterised {py : PyLib} (o : options) (gi : list str)
    (n : str) (cs : list entry) (p : path) :
  In p (collect o gi [] (Dir n cs))
  <-> file_at cs p
      /\ Forall (fun d => dir_rule o d = true) (removelast p)
      /\ include_pred o gi false p = true.
Proof.
  split.
  - intros Hin. destruct (collect_sound o gi _ _ _ Hin) as [q [-> H]].
    exact H.
  - intros [Hf [Hk Hp]].
    now apply (collect_complete o gi cs p Hf [] n).
Qed.

Lemma matches_any_glob_guarded {py : PyLib} (rel : str) (globs : list str) :
  nonempty globs && matches_any_glob rel globs = false ->
  matches_any_glob rel globs = false.
Proof. destruct globs; [reflexivity|exact (fun H => H)]. Qed.

(** X3. A collected file has an included extension and no excluded name, no
    exclude glob and no gitignore pattern matches its relative path, and no
    directory above it is hidden or named in [exclude_dirs]. *)
Theorem collected_files_pass_every_filter {py : PyLib} (o : options)
    (gi : list str) (n : str) (cs : list entry) (p : path) :
  In p (collect o gi [] (Dir n cs)) ->
  In (lower (suffix (path_name p))) (include_exts o)
  /\ ~ In (path_name p) (exclude_files o)
  /\ (forall pat, In pat (exclude_globs o) -> fnmatch (rel_str p) pat = false)
  /\ (forall pat, In pat gi -> fnmatch (rel_str p) pat = false)
  /\ (include_globs o <> [] ->
      exists pat, In pat (include_globs o) /\ fnmatch (rel_str p) pat = true)
  /\ (forall d, In d (removelast p) ->
        ~ In d (exclude_dirs o) /\ startswith d (lit ".") = false).
Proof.
  intros Hin. apply collect_characterised in Hin.
  destruct Hin as [_ [Hk Hp]].
  assert (Hnone : forall globs,
             matches_any_glob (rel_str p) globs = false ->
             forall pat, In pat globs -> fnmatch (rel_str p) pat = false).
  { intros globs Hm pat Hpat.
    destruct (fnmatch (rel_str p) pat) eqn:E; [|reflexivity].
    assert (matches_any_glob (rel_str p) globs = true)
      by (apply matches_any_glob_spec; eauto).
    congruence. }
  unfold include_pred in Hp.
  destruct (nonempty (exclude_globs o)
            && matches_any_glob (rel_str p) (exclude_globs o)) eqn:E1;
    [discriminate|].
  destruct (nonempty gi && matches_any_glob (rel_str p) gi) eqn:E2;
    [discriminate|].
  destruct (nonempty (include_globs o)
            && negb (matches_any_glob (rel_str p) (include_globs o))) eqn:E3;
    [discriminate|].
  destruct (mem (path_name p) (exclude_files o)) eqn:E4; [discriminate|].
  split; [now apply mem_spec|].
  split; [rewrite <- mem_spec; congruence|].
  split; [apply Hnone; now apply matches_any_glob_guarded|].
  split; [apply Hnone; now apply matches_any_glob_guarded|].
  split.
  - intros Hne. apply matches_any_glob_spec.
    destruct (include_globs o) as [|g gs]; [congruence|].
    cbn [nonempty andb] in E3. now apply negb_false_iff in E3.
  - intros d Hd. rewrite Forall_forall in Hk. specialize (Hk d Hd).
    unfold dir_rule in Hk. apply andb_true_iff in Hk.
    destruct Hk as [H1 H2]. apply negb_true_iff in H1, H2.
    split; [rewrite <- mem_spec; congruence|exact H2].
Qed.

Lemma collected_files_pass_every_filter_witness :
  let py := ascii_lib literal_fnmatch in
  In (lower (suffix (lit "a.py"))) (include_exts (default_opts [lit "proj"]))
  /\ ~ In (lit "a.py") (exclude_files (default_opts [lit "proj"])).
Proof.
  intros py.
  destruct (collected_files_pass_every_filter (default_opts [lit "proj"]) []
              (lit "proj") scenario_tree [lit "a.py"])
    as [H1 [H2 _]]; [now left|].
  split; [exact H1|exact H2].
Defined.

(** ** The tree and the walk agree *)

Lemma insert_by_perm_any {A} (leb : A -> A -> bool) (x : A) (l : list A) :
  Permutation (insert_by leb x l) (x :: l).
Proof.
  induction l as [|y l IH]; simpl; [reflexivity|].
  destruct (leb x y); [reflexivity|].
  rewrite IH. apply perm_swap.
Qed.

Lemma sorted_perm_any {A} (leb : A -> A -> bool) (l : list A) :
  Permutation (sorted leb l) l.
Proof.
  unfold sorted. induction l as [|x l IH]; simpl; [reflexivity|].
  rewrite insert_by_perm_any. now constructor.
Qed.

Lemma list_sum_cons (x : nat) (l : list nat) :
  list_sum (x :: l) = x + list_sum l.
Proof. reflexivity. Qed.

Lemma list_sum_perm (l l' : list nat) :
  Permutation l l' -> list_sum l = list_sum l'.
Proof. induction 1; simpl; lia. Qed.

Section TreeLines.

Context {py : PyLib}.
Variables (o : options) (gi : list str).

(** The lines an item takes in the tree: its own and those below it. *)
Let weight (it : item) : nat :=
  S (if it_is_dir it then length (it_below it []) else 0).

Lemma render_length (prefix : str) (items : list item) :
  (forall it, In it items ->
     forall pfx, length (it_below it pfx) = length (it_below it [])) ->
  length (render prefix items) = list_sum (map weight items).
Proof.
  induction items as [|it rest IH]; intros Hconst; [reflexivity|].
  cbn [render map]. cbv zeta. cbn [length].
  rewrite length_app, IH by (intros; apply Hconst; now right).
  unfold list_sum. cbn [fold_right]. unfold weight at 2.
  destruct (it_is_dir it); [|reflexivity].
  now rewrite (Hconst it (or_introl eq_refl)).
Qed.

(** The candidate that [iter_entries] makes of the child [c] at [rel]. *)
Let candidate (rel : path) (c : entry) : bool * item :=
  (include_pred o gi (is_dir c) (rel ++ [entry_name c]),
   {| it_is_dir := is_dir c; it_name := entry_name c;
      it_below := walk o gi (rel ++ [entry_name c]) c |}).

Lemma walk_dir (rel : path) (n : str) (cs : list entry) (prefix : str) :
  walk o gi rel (Dir n cs) prefix
  = render prefix (sorted item_leb (map snd (filter fst (map (candidate rel) cs)))).
Proof. reflexivity. Qed.

Lemma kept_dirs_dir (rel : path) (n : str) (cs : list entry) :
  kept_dirs o rel (Dir n cs)
  = flat_map (fun c =>
                match c with
                | Dir m _ =>
                    if dir_rule o m
                    then (rel ++ [m]) :: kept_dirs o (rel ++ [m]) c else []
                | File _ _ => []
                end) cs.
Proof. reflexivity. Qed.

Lemma path_name_snoc (rel : path) (m : str) : path_name (rel ++ [m]) = m.
Proof. unfold path_name. apply last_last. Qed.

Lemma walk_length (e : entry) :
  forall rel prefix,
    length (walk o gi rel e prefix)
    = length (kept_dirs o rel e) + length (collect o gi rel e).
Proof.
  induction e as [n d|n cs IH] using entry_induction; intros rel prefix.
  - reflexivity.
  - rewrite walk_dir, render_length.
    + rewrite (list_sum_perm _ _
                 (Permutation_map weight (sorted_perm_any item_leb _))).
      rewrite kept_dirs_dir, collect_dir, length_app.
      induction cs as [|c cs IHcs]; [reflexivity|].
      inversion IH as [|? ? Hc Hcs]; subst. specialize (IHcs Hcs).
      cbn [map filter flat_map]. rewrite !length_app.
      destruct c as [m d|m sub].
      * change (fst (candidate rel (File m d)))
          with (include_pred o gi false (rel ++ [m])).
        destruct (include_pred o gi false (rel ++ [m])); cbn [map].
        -- rewrite list_sum_cons, IHcs.
           change (weight (snd (candidate rel (File m d)))) with 1.
           cbn [length]. unfold path in *. lia.
        -- rewrite IHcs. cbn [length]. unfold path in *. lia.
      * change (fst (candidate rel (Dir m sub)))
          with (dir_rule o (path_name (rel ++ [m]))).
        rewrite path_name_snoc.
        destruct (dir_rule o m); cbn [map].
        -- rewrite list_sum_cons, IHcs.
           change (weight (snd (candidate rel (Dir m sub))))
             with (S (length (walk o gi (rel ++ [m]) (Dir m sub) []))).
           rewrite (Hc (rel ++ [m]) []). cbn [length]. unfold path in *. lia.
        -- rewrite IHcs. cbn [length]. unfold path in *. lia.
    + intros it Hin pfx.
      apply (Permutation_in _ (sorted_perm_any item_leb _)) in Hin.
      apply in_map_iff in Hin. destruct Hin as [[b it'] [Heq Hin]].
      cbn in Heq. subst it'. apply filter_In in Hin. destruct Hin as [Hin _].
      apply in_map_iff in Hin. destruct Hin as [c [Hc Hcs]].
      unfold candidate in Hc. injection Hc as _ <-. cbn [it_below].
      rewrite Forall_forall in IH. now rewrite !(IH c Hcs).
Qed.

End TreeLines.

(** In a tree without symbolic links the tree has, below the line of the
    root, one line for every directory the walk descends into and one for
    every file the walk collects. *)
Lemma tree_lines_match_walk {py : PyLib} (o : options) (gi : list str)
    (cs : list entry) :
  exists lines,
    dir_tree_ascii o gi cs = join nl (root_name o :: lines)
    /\ length lines
       = length (kept_dirs o [] (Dir (root_name o) cs))
         + length (collect o gi [] (Dir (root_name o) cs)).
Proof.
  exists (walk o gi [] (Dir (root_name o) cs) []).
  split; [reflexivity|apply walk_length].
Qed.

(** ** Options: defaults and precedence *)

Lemma flat_map_ext_in {A B} (f g : A -> list B) (l : list A) :
  (forall a, In a l -> f a = g a) -> flat_map f l = flat_map g l.
Proof.
  induction l as [|a l IH]; intros H; [reflexivity|].
  cbn [flat_map]. rewrite (H a (or_introl eq_refl)), IH; [reflexivity|].
  intros b Hb. apply H. now right.
Qed.

Section Defaults.

Context {py : PyLib}.
Variable o : options.

Let o' : options := fill_defaults o.

Lemma dir_rule_defaults (n : str) : dir_rule o' n = dir_rule o n.
Proof. reflexivity. Qed.

Lemma include_pred_defaults (gi : list str) (d : bool) (p : path) :
  include_pred o' gi d p = include_pred o gi d p.
Proof. reflexivity. Qed.

Lemma loop_body_defaults (cs : list entry) (st : loop_state) (p : path) :
  loop_body o' cs st p = loop_body o cs st p.
Proof. reflexivity. Qed.

Lemma stats_footer_defaults (st : loop_state) :
  stats_footer o' st = stats_footer o st.
Proof. reflexivity. Qed.

Lemma sorted_files_defaults (so : list path -> list path) (l : list path) :
  sorted_files so o' l = sorted_files so o l.
Proof. reflexivity. Qed.

Lemma gitignore_pats_defaults (cs : list entry) :
  gitignore_pats o' cs = gitignore_pats o cs.
Proof. reflexivity. Qed.

Lemma collect_defaults (gi : list str) (e : entry) :
  forall rel, collect o' gi rel e = collect o gi rel e.
Proof.
  induction e as [n d|n cs IH] using entry_induction; intros rel;
    [reflexivity|].
  rewrite !collect_dir. f_equal. apply flat_map_ext_in.
  intros [m d|m sub] Hin; [reflexivity|].
  rewrite dir_rule_defaults. destruct (dir_rule o m); [|reflexivity].
  rewrite Forall_forall in IH. now apply IH.
Qed.

(** Two items that print alike: same kind, same name, same lines below. *)
Let alike (a b : item) : Prop :=
  it_is_dir a = it_is_dir b /\ it_name a = it_name b
  /\ forall pfx, it_below a pfx = it_below b pfx.

Lemma item_leb_alike (a b x y : item) :
  alike a b -> alike x y -> item_leb a x = item_leb b y.
Proof.
  intros [H1 [H2 _]] [H3 [H4 _]]. unfold item_leb.
  now rewrite H1, H2, H3, H4.
Qed.

Lemma insert_by_alike (a b : item) (l l' : list item) :
  alike a b -> Forall2 alike l l' ->
  Forall2 alike (insert_by item_leb a l) (insert_by item_leb b l').
Proof.
  intros Hab. induction 1 as [|x y l l' Hxy Hl IH]; cbn [insert_by].
  - constructor; [exact Hab|constructor].
  - rewrite (item_leb_alike a b x y Hab Hxy).
    destruct (item_leb b y).
    + constructor; [exact Hab|]. constructor; assumption.
    + constructor; [exact Hxy|exact IH].
Qed.

Lemma sorted_alike (l l' : list item) :
  Forall2 alike l l' ->
  Forall2 alike (sorted item_leb l) (sorted item_leb l').
Proof.
  unfold sorted. induction 1; cbn [fold_right]; [constructor|].
  now apply insert_by_alike.
Qed.

Lemma render_alike (prefix : str) (l l' : list item) :
  Forall2 alike l l' -> render prefix l = render prefix l'.
Proof.
  induction 1 as [|x y l l' [H1 [H2 H3]] Hl IH]; [reflexivity|].
  cbn [render]. cbv zeta. rewrite H1, H2, H3, IH.
  now destruct Hl.
Qed.

Lemma walk_defaults (gi : list str) (e : entry) :
  forall rel prefix, walk o' gi rel e prefix = walk o gi rel e prefix.
Proof.
  induction e as [n d|n cs IH] using entry_induction; intros rel prefix;
    [reflexivity|].
  rewrite !walk_dir. apply render_alike, sorted_alike.
  induction cs as [|c cs IHcs]; [constructor|].
  inversion IH as [|? ? Hc Hcs]; subst. specialize (IHcs Hcs).
  cbn [map filter fst snd]. rewrite include_pred_defaults.
  destruct (include_pred o gi (is_dir c) (rel ++ [entry_name c]));
    [|exact IHcs].
  cbn [map snd]. constructor; [|exact IHcs].
  repeat split. intros pfx. apply Hc.
Qed.

End Defaults.

(** On options that hold no key with the value [None], filling in the
    defaults of [main] does not change the result of the build. *)
Lemma main_defaults_agree {py : PyLib}
    (set_order : list path -> list path) (o : options) (cs : list entry) :
  build_snapshot set_order (fill_defaults o) cs = build_snapshot set_order o cs.
Proof.
  unfold build_snapshot. rewrite gitignore_pats_defaults.
  destruct (gitignore_pats o cs) as [gi|]; [|reflexivity].
  assert (Hrun : run_loop set_order (fill_defaults o) gi cs
                 = run_loop set_order o gi cs).
  { unfold run_loop. change (root_name (fill_defaults o)) with (root_name o).
    rewrite collect_defaults, sorted_files_defaults.
    assert (Htree : dir_tree_ascii (fill_defaults o) gi cs
                    = dir_tree_ascii o gi cs).
    { unfold dir_tree_ascii.
      change (root_name (fill_defaults o)) with (root_name o).
      now rewrite walk_defaults. }
    rewrite Htree. generalize (initial_state (dir_tree_ascii o gi cs)).
    induction (sorted_files set_order o _) as [|p l IH]; intros st;
      [reflexivity|].
    cbn [fold_left]. rewrite loop_body_defaults. apply IH. }
  now rewrite Hrun, stats_footer_defaults.
Qed.

Lemma str_eqb_eq (a b : str) : str_eqb a b = true <-> a = b.
Proof.
  unfold str_eqb. destruct (list_eq_dec N.eq_dec a b); split;
    congruence.
Qed.

Lemma str_eqb_refl (a : str) : str_eqb a a = true.
Proof. now apply str_eqb_eq. Qed.

Lemma dict_get_set {V} (d : dict V) (k k' : str) (v : V) :
  dict_get (dict_set d k v) k'
  = if str_eqb k k' then Some v else dict_get d k'.
Proof.
  induction d as [|[k0 v0] d IH]; cbn [dict_set dict_get].
  - reflexivity.
  - destruct (str_eqb k0 k) eqn:E0; cbn [dict_get].
    + apply str_eqb_eq in E0. subst k0.
      destruct (str_eqb k k'); reflexivity.
    + destruct (str_eqb k0 k') eqn:E1; [|exact IH].
      apply str_eqb_eq in E1. subst k'.
      destruct (str_eqb k k0) eqn:E2; [|reflexivity].
      apply str_eqb_eq in E2. subst k0. rewrite str_eqb_refl in E0.
      discriminate.
Qed.

Lemma dict_get_absent {V} (d : dict V) (k : str) :
  ~ In k (map fst d) -> dict_get d k = None.
Proof.
  induction d as [|[k0 v0] d IH]; cbn [dict_get map fst In]; [reflexivity|].
  intros H. destruct (str_eqb k0 k) eqn:E.
  - apply str_eqb_eq in E. exfalso. apply H. now left.
  - apply IH. intros Hin. apply H. now right.
Qed.

(** X14. The command line wins per option: a key the command line sets to a value
    other than [None] takes that value; any other key keeps the value of the
    configuration file, or stays absent. *)
Theorem merge_options_precedence {V} (cli cfg : dict (option V)) (k : str) :
  NoDup (map fst cli) ->
  dict_get (merge_options cli cfg) k
  = match dict_get cli k with
    | Some (Some v) => Some (Some v)
    | _ => dict_get cfg k
    end.
Proof.
  unfold merge_options. revert cfg.
  induction cli as [|[k0 v0] cli IH]; intros cfg Hnd; [reflexivity|].
  cbn [map fst] in Hnd. inversion Hnd as [|? ? Hk0 Hrest]; subst.
  cbn [fold_left dict_get fst snd]. rewrite IH by exact Hrest.
  destruct (str_eqb k0 k) eqn:E.
  - apply str_eqb_eq in E. subst k0.
    rewrite (dict_get_absent cli k Hk0).
    destruct v0 as [v|]; [|reflexivity].
    now rewrite dict_get_set, str_eqb_refl.
  - destruct v0 as [v|]; [|reflexivity].
    rewrite dict_get_set, E. reflexivity.
Qed.

Lemma merge_options_precedence_witness :
  let cli := [(lit "max_bytes", Some 10%Z); (lit "head_lines", None)] in
  let cfg := [(lit "head_lines", Some 5%Z); (lit "max_bytes", Some 300%Z);
              (lit "tail_lines", Some 7%Z)] in
  dict_get (merge_options cli cfg) (lit "max_bytes") = Some (Some 10%Z)
  /\ dict_get (merge_options cli cfg) (lit "head_lines") = Some (Some 5%Z)
  /\ dict_get (merge_options cli cfg) (lit "tail_lines") = Some (Some 7%Z)
  /\ dict_get (merge_options cli cfg) (lit "label") = None.
Proof.
  intros cli cfg.
  assert (Hnd : NoDup (map fst cli)).
  { repeat constructor; simpl; intuition discriminate. }
  split; [|split; [|split]];
    (eapply eq_trans;
     [apply (merge_options_precedence cli cfg _ Hnd)|reflexivity]).
Defined.

(** ** Splitting a list option *)

Lemma re_split_from_clean (s : str) :
  forall cur in_run,
    forallb (fun c => negb (is_sep c)) cur = true ->
    Forall (fun piece => forallb (fun c => negb (is_sep c)) piece = true)
           (re_split_from cur in_run s).
Proof.
  assert (Hrev : forall cur,
             forallb (fun c => negb (is_sep c)) cur = true ->
             forallb (fun c => negb (is_sep c)) (rev cur) = true).
  { intros cur H. rewrite forallb_forall in *. intros x Hx.
    apply H. now apply in_rev. }
  induction s as [|c t IH]; intros cur in_run Hcur; cbn [re_split_from].
  - constructor; [now apply Hrev|constructor].
  - destruct (is_sep c) eqn:E.
    + destruct in_run; [now apply IH|].
      constructor; [now apply Hrev|now apply IH].
    + apply IH. cbn [forallb]. now rewrite E.
Qed.

(** X15. The parts [_split_list] returns are never empty and hold neither a
    comma nor white space. *)
Theorem split_list_parts_are_clean (s : str) (part : str) :
  In part (_split_list s) -> clean part.
Proof.
  unfold _split_list, clean. intros Hin.
  apply filter_In in Hin. destruct Hin as [Hin Hne].
  split; [intros E; rewrite E in Hne; discriminate|].
  pose proof (re_split_from_clean (strip s) [] false eq_refl) as H.
  rewrite Forall_forall in H. now apply H.
Qed.

Lemma split_list_parts_are_clean_witness :
  _split_list (lit " .py,  .json ,,.toml ") = [lit ".py"; lit ".json"; lit ".toml"]
  /\ clean (lit ".json").
Proof.
  split; [reflexivity|].
  apply (split_list_parts_are_clean (lit " .py,  .json ,,.toml ")).
  right. left. reflexivity.
Defined.

Lemma re_split_from_token (t : str) :
  forall cur in_run rest,
    forallb (fun c => negb (is_sep c)) t = true ->
    re_split_from cur in_run (t ++ rest)
    = re_split_from (rev t ++ cur)
        (match t with [] => in_run | _ :: _ => false end) rest.
Proof.
  induction t as [|c t IH]; intros cur in_run rest Ht; [reflexivity|].
  cbn [forallb] in Ht. apply andb_true_iff in Ht. destruct Ht as [Hc Ht].
  apply negb_true_iff in Hc. cbn [app re_split_from]. rewrite Hc.
  rewrite IH by exact Ht. cbn [rev]. rewrite <- app_assoc. cbn [app].
  now destruct t.
Qed.

Lemma re_split_from_run (sep : str) :
  forall rest, forallb is_sep sep = true ->
    re_split_from [] true (sep ++ rest) = re_split_from [] true rest.
Proof.
  induction sep as [|c sep IH]; intros rest H; [reflexivity|].
  cbn [forallb] in H. apply andb_true_iff in H. destruct H as [Hc H].
  cbn [app re_split_from]. rewrite Hc. now apply IH.
Qed.

Lemma re_split_from_join (sep : str) (parts : list str) :
  sep <> [] -> forallb is_sep sep = true ->
  parts <> [] -> Forall clean parts ->
  forall in_run, re_split_from [] in_run (join sep parts) = parts.
Proof.
  intros Hsep Hall Hne Hclean.
  induction Hclean as [|x r [Hx1 Hx2] Hr IH]; [congruence|]. intros in_run.
  destruct r as [|y r].
  - cbn [join]. rewrite <- (app_nil_r x) at 1.
    rewrite re_split_from_token by exact Hx2.
    cbn [re_split_from]. now rewrite app_nil_r, rev_involutive.
  - change (join sep (x :: y :: r)) with (x ++ sep ++ join sep (y :: r)).
    rewrite re_split_from_token by exact Hx2.
    destruct x as [|c x']; [congruence|].
    destruct sep as [|s0 sep']; [congruence|].
    cbn [forallb] in Hall. apply andb_true_iff in Hall.
    destruct Hall as [Hs0 Hsep'].
    cbn [app re_split_from]. rewrite Hs0.
    rewrite app_nil_r, rev_involutive. f_equal.
    rewrite re_split_from_run by exact Hsep'.
    apply IH. discriminate.
Qed.

Lemma strip_while_fixed (f : N -> bool) (s : str) :
  (forall c t, s = c :: t -> f c = false) ->
  (forall t c, s = t ++ [c] -> f c = false) ->
  strip_while f s = s.
Proof.
  intros Hfirst Hlast. unfold strip_while.
  rewrite (lstrip_while_fixed f s) by exact Hfirst.
  rewrite lstrip_while_fixed; [apply rev_involutive|].
  intros c t Hrev. apply (Hlast (rev t) c).
  apply (f_equal (@rev N)) in Hrev. rewrite rev_involutive in Hrev.
  exact Hrev.
Qed.

Lemma join_ends (sep : str) (parts : list str) :
  parts <> [] ->
  exists post pre,
    join sep parts = hd [] parts ++ post
    /\ join sep parts = pre ++ last parts [].
Proof.
  induction parts as [|x r IH]; [congruence|]. intros _.
  destruct r as [|y r].
  - exists [], []. cbn. now rewrite app_nil_r.
  - destruct IH as [post [pre [_ Hpre]]]; [discriminate|].
    change (join sep (x :: y :: r)) with (x ++ sep ++ join sep (y :: r)).
    exists (sep ++ join sep (y :: r)), (x ++ sep ++ pre).
    split; [reflexivity|].
    rewrite Hpre at 1. change (last (x :: y :: r) []) with (last (y :: r) []).
    now rewrite !app_assoc.
Qed.

Lemma not_sep_not_space (c : N) : is_sep c = false -> is_space c = false.
Proof. unfold is_sep. now intros H%orb_false_iff. Qed.

(** X16. Splitting what was joined gives the parts back: for parts that are not
    empty and hold no comma or white space, joined by any non-empty run of
    commas and white space, [_split_list] returns exactly the parts. *)
Theorem split_list_of_join (sep : str) (parts : list str) :
  sep <> [] -> forallb is_sep sep = true -> Forall clean parts ->
  _split_list (join sep parts) = parts.
Proof.
  intros Hsep Hall Hclean. unfold _split_list.
  destruct parts as [|x r]; [reflexivity|].
  assert (Hstrip : strip (join sep (x :: r)) = join sep (x :: r)).
  { destruct (join_ends sep (x :: r)) as [post [pre [Hhd Hlast]]];
      [discriminate|].
    rewrite Forall_forall in Hclean.
    apply strip_while_fixed.
    - intros c t Hs. rewrite Hs in Hhd. cbn [hd] in Hhd.
      destruct (Hclean x (or_introl eq_refl)) as [Hx1 Hx2].
      destruct x as [|c0 x']; [congruence|]. cbn [app] in Hhd.
      injection Hhd as -> _. cbn [forallb] in Hx2.
      apply andb_true_iff in Hx2. destruct Hx2 as [Hc _].
      now apply not_sep_not_space, negb_true_iff.
    - intros t c Hs. rewrite Hs in Hlast.
      assert (Hin : In (last (x :: r) []) (x :: r))
        by (destruct (exists_last (l := x :: r)) as [l' [a E]];
            [discriminate|]; rewrite E, last_last; apply in_or_app;
            right; now left).
      destruct (Hclean _ Hin) as [Hl1 Hl2].
      destruct (exists_last Hl1) as [l' [a E]]. rewrite E in Hlast, Hl2.
      rewrite app_assoc in Hlast. apply app_inj_tail in Hlast.
      destruct Hlast as [_ ->].
      rewrite forallb_app in Hl2. apply andb_true_iff in Hl2.
      destruct Hl2 as [_ Ha]. cbn [forallb] in Ha.
      apply andb_true_iff in Ha. destruct Ha as [Ha _].
      now apply not_sep_not_space, negb_true_iff. }
  rewrite Hstrip.
  rewrite re_split_from_join; try assumption; [|discriminate].
  apply forallb_filter_id. apply forallb_forall. intros part Hin.
  rewrite Forall_forall in Hclean. destruct (Hclean part Hin) as [Hne _].
  now destruct part.
Qed.

Lemma split_list_of_join_witness :
  _split_list (join (lit ", ") [lit ".py"; lit ".json"; lit "README"])
  = [lit ".py"; lit ".json"; lit "README"].
Proof.
  apply (split_list_of_join (lit ", ") [lit ".py"; lit ".json"; lit "README"]).
  - discriminate.
  - reflexivity.
  - repeat constructor; discriminate.
Defined.

(** ** Order of the entries in the tree *)

Section TreeOrder.

Context {py : PyLib}.

Lemma item_leb_total (a b : item) : item_leb a b = true \/ item_leb b a = true.
Proof.
  unfold item_leb. destruct (it_is_dir a), (it_is_dir b); cbn [negb]; auto;
    apply str_leb_total.
Qed.

Lemma item_leb_trans (a b c : item) :
  item_leb a b = true -> item_leb b c = true -> item_leb a c = true.
Proof.
  unfold item_leb.
  destruct (it_is_dir a), (it_is_dir b), (it_is_dir c); cbn [negb];
    try discriminate; auto; apply str_leb_trans.
Qed.

Lemma insert_by_item_sorted (x : item) (l : list item) :
  StronglySorted (fun a b => item_leb a b = true) l ->
  StronglySorted (fun a b => item_leb a b = true) (insert_by item_leb x l).
Proof.
  induction 1 as [|y l Hs IH Hall]; cbn [insert_by].
  - repeat constructor.
  - destruct (item_leb x y) eqn:E.
    + constructor; [now constructor|].
      constructor; [exact E|].
      eapply Forall_impl; [|exact Hall].
      intros z Hz. eapply item_leb_trans; eauto.
    + constructor; [exact IH|].
      eapply Permutation_Forall; [symmetry; apply insert_by_perm_any|].
      constructor; [|exact Hall].
      destruct (item_leb_total x y); congruence.
Qed.

Lemma sorted_items_sorted (items : list item) :
  StronglySorted (fun a b => item_leb a b = true) (sorted item_leb items).
Proof.
  unfold sorted. induction items as [|x l IH]; cbn [fold_right].
  - constructor.
  - now apply insert_by_item_sorted.
Qed.

End TreeOrder.

(** X5. The entries of a directory are printed directories first, then files,
    each group in the order of the lower-cased names; sorting loses and adds
    no entry. *)
Theorem tree_entries_directories_first {py : PyLib} (items : list item) :
  Permutation (sorted item_leb items) items
  /\ forall before a after b,
       sorted item_leb items = before ++ a :: after -> In b after ->
       (it_is_dir b = true -> it_is_dir a = true)
       /\ (it_is_dir a = it_is_dir b ->
           str_leb (lower (it_name a)) (lower (it_name b)) = true).
Proof.
  split; [apply sorted_perm_any|].
  intros before a after b Heq Hin.
  pose proof (sorted_items_sorted items) as Hs. rewrite Heq in Hs.
  assert (Hab : item_leb a b = true).
  { clear Heq. induction before as [|x before IH].
    - inversion Hs as [|? ? _ Hall]; subst.
      rewrite Forall_forall in Hall. now apply Hall.
    - inversion Hs; subst. now apply IH. }
  unfold item_leb in Hab.
  destruct (it_is_dir a), (it_is_dir b); cbn [negb] in Hab;
    split; intros; try discriminate; auto.
Qed.

(** ** The strip after shaping *)


(** ** A file that cannot be examined *)

(** C7 fails on the code.  The file locked/a.py lies in a directory that can
    be listed but not searched.  Its read raises, and the reader would
    report it skipped; but the tree renderer, which runs first, calls
    [is_dir] on it without a handler and the build raises.  When the file
    can be examined and only its read raises, the build goes on and counts
    it as skipped. *)
Theorem unsearchable_directory_aborts_build :
  let py := ascii_lib literal_fnmatch in
  let o := default_opts [lit "proj"] in
  read_text_safely (file_data locked_tree [lit "locked"; lit "a.py"])
    (max_bytes o) = ([], false, true)
  /\ In [lit "locked"; lit "a.py"]
        (stat_probes o [] (Dir (root_name o) locked_tree))
  /\ build_snapshot_denied in_locked insertion_order o locked_tree = None
  /\ option_map splitlines
       (build_snapshot_denied (fun _ => false) insertion_order o locked_tree)
     = Some (map lit
          ["# Project Snapshot"; "## Directory Tree"; "```text"; "proj";
           "|-- locked"; "|   `-- a.py"; "`-- ok.py"; "```"; "";
           "## ok.py"; "```python"; "print(1)"; "```"; "";
           "---"; "## Snapshot Stats"; "- files_included: 2";
           "- files_skipped_as_binary_or_unreadable: 1"]%string).
Proof.
  intros py o. split; [reflexivity|].
  split; [right; right; left; reflexivity|].
  split; vm_compute; reflexivity.
Qed.

(** ** Collected files in the tree *)

Section Listed.

Context {py : PyLib}.
Variables (o : options) (gi : list str).

(** An item of a directory has its own line, and when it is a directory
    the lines below it are printed one unit deeper. *)
Lemma render_in (prefix : str) (items : list item) (it : item) :
  In it items ->
  exists connector extension,
    is_connector connector /\ is_extension extension
    /\ In (prefix ++ connector ++ it_name it) (render prefix items)
    /\ (it_is_dir it = true ->
        incl (it_below it (prefix ++ extension)) (render prefix items)).
Proof.
  induction items as [|e rest IH]; intros Hin; [destruct Hin|].
  cbn [render]. cbv zeta. destruct Hin as [->|Hin].
  - exists (if negb (nonempty rest) then lit "`-- " else lit "|-- "),
           (if negb (nonempty rest) then lit "    " else lit "|   ").
    split; [destruct (negb (nonempty rest)); [right|left]; reflexivity|].
    split; [destruct (negb (nonempty rest)); [right|left]; reflexivity|].
    split; [left; reflexivity|].
    intros Hd l Hl. rewrite Hd. right. apply in_or_app. now left.
  - destruct (IH Hin) as [c [x [Hc [Hx [Hline Hbelow]]]]].
    exists c, x. split; [exact Hc|]. split; [exact Hx|].
    split; [right; apply in_or_app; now right|].
    intros Hd l Hl. right. apply in_or_app. right. now apply Hbelow.
Qed.

Lemma walk_item (rel : path) (n : str) (cs : list entry) (c : entry)
    (prefix : str) :
  In c cs ->
  include_pred o gi (is_dir c) (rel ++ [entry_name c]) = true ->
  exists connector extension,
    is_connector connector /\ is_extension extension
    /\ In (prefix ++ connector ++ entry_name c)
          (walk o gi rel (Dir n cs) prefix)
    /\ (is_dir c = true ->
        incl (walk o gi (rel ++ [entry_name c]) c (prefix ++ extension))
             (walk o gi rel (Dir n cs) prefix)).
Proof.
  intros Hc Hp.
  set (it := {| it_is_dir := is_dir c; it_name := entry_name c;
                it_below := walk o gi (rel ++ [entry_name c]) c |}).
  apply (render_in prefix _ it).
  apply (Permutation_in _ (Permutation_sym (sorted_perm_any item_leb _))).
  apply in_map_iff. exists (true, it). split; [reflexivity|].
  apply filter_In. split; [|reflexivity].
  apply in_map_iff. exists c. split; [|exact Hc].
  cbv zeta. now rewrite Hp.
Qed.

Lemma file_at_listed (cs : list entry) (q : path) :
  file_at cs q ->
  forall rel n prefix,
    Forall (fun d => dir_rule o d = true) (removelast q) ->
    include_pred o gi false (rel ++ q) = true ->
    exists units connector,
      Forall is_extension units
      /\ length units = length q - 1
      /\ is_connector connector
      /\ In (prefix ++ concat units ++ connector ++ path_name q)
            (walk o gi rel (Dir n cs) prefix).
Proof.
  induction 1 as [cs m d Hin|cs m sub q Hin Hq IH]; intros rel n prefix Hk Hp.
  - destruct (walk_item rel n cs (File m d) prefix Hin Hp)
      as [c [x [Hc [_ [Hline _]]]]].
    exists [], c. split; [constructor|]. split; [reflexivity|].
    split; [exact Hc|exact Hline].
  - rewrite removelast_cons in Hk by (eapply file_at_nonempty; exact Hq).
    inversion Hk as [|? ? Hm Hrest]; subst.
    assert (Hd : include_pred o gi (is_dir (Dir m sub))
                   (rel ++ [entry_name (Dir m sub)]) = true).
    { cbn [is_dir entry_name]. unfold include_pred.
      unfold path_name. now rewrite last_last. }
    destruct (walk_item rel n cs (Dir m sub) prefix Hin Hd)
      as [c [x [_ [Hx [_ Hbelow]]]]].
    cbn [entry_name] in Hbelow.
    assert (Hp' : include_pred o gi false ((rel ++ [m]) ++ q) = true)
      by now rewrite <- app_assoc.
    destruct (IH (rel ++ [m]) m (prefix ++ x) Hrest Hp')
      as [units [c' [Hu [Hlen [Hc' Hline]]]]].
    exists (x :: units), c'. split; [now constructor|].
    split.
    { pose proof (file_at_nonempty _ _ Hq) as Hne.
      destruct q; [congruence|]. cbn [length] in *. lia. }
    split; [exact Hc'|].
    apply (Hbelow eq_refl). cbn [concat].
    replace (path_name (m :: q)) with (path_name q).
    + now rewrite <- !app_assoc in *.
    + pose proof (file_at_nonempty _ _ Hq) as Hne.
      unfold path_name. destruct q; [congruence|reflexivity].
Qed.

End Listed.

(** X4. Every file the walk collects has its line in the directory tree: its
    name after a connector, indented by one unit for every directory
    between the root and the file.  (The tree may hold more lines than the
    walk has files and directories, never fewer.) *)
Theorem collected_files_are_listed {py : PyLib} (o : options)
    (gi : list str) (cs : list entry) (p : path) :
  In p (collect o gi [] (Dir (root_name o) cs)) ->
  exists lines units connector,
    dir_tree_ascii o gi cs = join nl (root_name o :: lines)
    /\ Forall is_extension units
    /\ length units = length p - 1
    /\ is_connector connector
    /\ In (concat units ++ connector ++ path_name p) lines.
Proof.
  intros Hin. apply collect_sound in Hin.
  destruct Hin as [q [-> [Hq [Hk Hp]]]]. cbn [children app] in *.
  destruct (file_at_listed o gi cs q Hq [] (root_name o) [] Hk Hp)
    as [units [c [Hu [Hlen [Hc Hline]]]]].
  exists (walk o gi [] (Dir (root_name o) cs) []), units, c.
  split; [reflexivity|]. split; [exact Hu|]. split; [exact Hlen|].
  split; [exact Hc|exact Hline].
Qed.

Lemma collected_files_are_listed_witness :
  let py := ascii_lib literal_fnmatch in
  let o := default_opts [lit "proj"] in
  In [lit "pkg"; lit "sub"; lit "deep.py"]
     (collect o [] [] (Dir (root_name o) nested_tree))
  /\ exists lines units connector,
       dir_tree_ascii o [] nested_tree = join nl (root_name o :: lines)
       /\ Forall is_extension units
       /\ length units = 2
       /\ is_connector connector
       /\ In (concat units ++ connector ++ lit "deep.py") lines.
Proof.
  intros py o.
  assert (Hin : In [lit "pkg"; lit "sub"; lit "deep.py"]
                   (collect o [] [] (Dir (root_name o) nested_tree)))
    by (right; right; left; reflexivity).
  split; [exact Hin|].
  exact (collected_files_are_listed o [] nested_tree
           [lit "pkg"; lit "sub"; lit "deep.py"] Hin).
Defined.

(** ** Keys with the value [None] *)

Lemma options_read_main_fill (r : raw_options) :
  no_null r ->
  exists o, options_read r = Some o
            /\ options_read (main_fill r) = Some (fill_defaults o).
Proof.
  intros [H1 [H2 [H3 [H4 [H5 [H6 [H7 [H8 [H9 H10]]]]]]]]].
  destruct r as [root ie ed ef ig eg rg mb hl tl ss]. cbn in *.
  destruct ie; [|congruence|]; destruct ed; try congruence;
    destruct ef; try congruence; destruct ig; try congruence;
    destruct eg; try congruence; destruct rg; try congruence;
    destruct mb; try congruence; destruct hl; try congruence;
    destruct tl; try congruence; destruct ss; try congruence;
    eexists; split; reflexivity.
Qed.

(** X13. When no key of the options is present with the value [None], the
    defaults that [main] fills in are those [build_snapshot] takes by
    itself: the build gives the same result with and without lines 411-420
    of [main]. *)
Theorem main_fill_agrees {py : PyLib} (set_order : list path -> list path)
    (r : raw_options) (cs : list entry) :
  no_null r ->
  build_snapshot_raw set_order (main_fill r) cs
  = build_snapshot_raw set_order r cs.
Proof.
  intros Hr. destruct (options_read_main_fill r Hr) as [o [Ho Hf]].
  unfold build_snapshot_raw. rewrite Ho, Hf. apply main_defaults_agree.
Qed.

Lemma main_fill_agrees_witness :
  let py := ascii_lib literal_fnmatch in
  no_null (raw_with_stats (Val false))
  /\ build_snapshot_raw insertion_order (main_fill (raw_with_stats (Val false)))
       scenario_tree
     = build_snapshot_raw insertion_order (raw_with_stats (Val false))
         scenario_tree.
Proof.
  intros py.
  assert (Hr : no_null (raw_with_stats (Val false)))
    by (unfold no_null; cbn; split; [|split; [|split; [|split; [|split;
          [|split; [|split; [|split; [|split]]]]]]]]; discriminate).
  split; [exact Hr|].
  exact (main_fill_agrees insertion_order (raw_with_stats (Val false))
           scenario_tree Hr).
Defined.



